(** * kubectl wait: the condition parser of pkg/cmd/wait/waiter.go

    A shallow embedding of [waiterFor], [newJSONPathParser] and
    [processJSONPathInput], together with the parts of Go's standard
    library they call ([strings], [unicode/utf8], [strconv], [fmt],
    [errors]), and the properties of the parser.

    Go strings are byte sequences: a string is a [string] of Rocq, one
    [ascii] per byte.  Go's [int] is modelled by [Z]; every integer below
    is a length or an index of a string, so no machine arithmetic wraps. *)

From Stdlib Require Import ZArith List Bool Lia.
From Stdlib Require Import Strings.Ascii Strings.String.
Import ListNotations.

#[local] Open Scope string_scope.
#[local] Open Scope Z_scope.

(** ** Bytes and slices *)

(** The numeric value of a byte, and Go's conversion [byte(x)]. *)
Definition byteZ (b : ascii) : Z := Z.of_N (N_of_ascii b).
Definition byteOf (x : Z) : ascii := ascii_of_N (Z.to_N (x mod 256)).

(** The double-quote byte (0x22). *)
Definition dquote : ascii := "034"%char.

(** [len(s)]. *)
Definition len (s : string) : Z := Z.of_nat (String.length s).

(** [s[n:]] and [s[:n]] for [n] within the string; [sliceFrom] and [slice]
    below add Go's range check. *)
Fixpoint drop (n : nat) (s : string) : string :=
  match n, s with
  | O, _ => s
  | S _, EmptyString => EmptyString
  | S n', String _ s' => drop n' s'
  end.

Fixpoint take (n : nat) (s : string) : string :=
  match n, s with
  | O, _ => EmptyString
  | S _, EmptyString => EmptyString
  | S n', String b s' => String b (take n' s')
  end.

(** [s[lo:hi]]: [None] stands for the run-time panic "slice bounds out of
    range". *)
Definition slice (s : string) (lo hi : Z) : option string :=
  if (0 <=? lo) && (lo <=? hi) && (hi <=? len s)
  then Some (take (Z.to_nat (hi - lo)) (drop (Z.to_nat lo) s))
  else None.

(** [s[lo:]]. *)
Definition sliceFrom (s : string) (lo : Z) : option string :=
  slice s lo (len s).

(** [a[i]] on a slice of strings: [None] stands for "index out of range". *)
Definition elemAt (a : list string) (i : Z) : option string :=
  if (0 <=? i) && (i <? Z.of_nat (List.length a))
  then nth_error a (Z.to_nat i)
  else None.

(** ** Package unicode/utf8 *)

Module utf8.

Definition RuneError : Z := 0xFFFD.
Definition RuneSelf : Z := 0x80.
Definition MaxRune : Z := 0x10FFFF.
Definition surrogateMin : Z := 0xD800.
Definition surrogateMax : Z := 0xDFFF.

Definition t2 : Z := 0xC0.
Definition t3 : Z := 0xE0.
Definition t4 : Z := 0xF0.
Definition tx : Z := 0x80.
Definition maskx : Z := 0x3F.
Definition mask2 : Z := 0x1F.
Definition mask3 : Z := 0x0F.
Definition mask4 : Z := 0x07.
Definition rune1Max : Z := 0x7F.
Definition rune2Max : Z := 0x7FF.
Definition rune3Max : Z := 0xFFFF.
Definition locb : Z := 0x80.
Definition hicb : Z := 0xBF.

(** Information about the first byte of an encoding. *)
Definition xx : Z := 0xF1.
Definition as_ : Z := 0xF0.
Definition s1 : Z := 0x02.
Definition s2 : Z := 0x13.
Definition s3 : Z := 0x03.
Definition s4 : Z := 0x23.
Definition s5 : Z := 0x34.
Definition s6 : Z := 0x04.
Definition s7 : Z := 0x44.

(** The table [first], by ranges of the byte. *)
Definition first (b : Z) : Z :=
  if b <? 0x80 then as_
  else if b <? 0xC2 then xx
  else if b <? 0xE0 then s1
  else if b =? 0xE0 then s2
  else if b <? 0xED then s3
  else if b =? 0xED then s4
  else if b <? 0xF0 then s3
  else if b =? 0xF0 then s5
  else if b <? 0xF4 then s6
  else if b =? 0xF4 then s7
  else xx.

(** The table [acceptRanges]: the bounds of the second byte. *)
Definition acceptRanges (i : Z) : Z * Z :=
  if i =? 1 then (0xA0, hicb)
  else if i =? 2 then (locb, 0x9F)
  else if i =? 3 then (0x90, hicb)
  else if i =? 4 then (locb, 0x8F)
  else (locb, hicb).

(** [DecodeRuneInString]: the first rune of [s] and its width in bytes;
    [(RuneError, 1)] on an invalid encoding, [(RuneError, 0)] on the
    empty string. *)
Definition DecodeRuneInString (s : string) : Z * Z :=
  match s with
  | EmptyString => (RuneError, 0)
  | String c0 r0 =>
    let b0 := byteZ c0 in
    let x := first b0 in
    if x >=? as_ then
      (* the mask of the source selects RuneError exactly when [x = xx] *)
      (if x =? xx then RuneError else b0, 1)
    else
      let sz := Z.land x 7 in
      let accept := acceptRanges (Z.shiftr x 4) in
      if len s <? sz then (RuneError, 1)
      else
        match r0 with
        | EmptyString => (RuneError, 1)
        | String c1 r1 =>
          let b1 := byteZ c1 in
          if (b1 <? fst accept) || (snd accept <? b1) then (RuneError, 1)
          else if sz <=? 2 then
            (Z.lor (Z.shiftl (Z.land b0 mask2) 6) (Z.land b1 maskx), 2)
          else
            match r1 with
            | EmptyString => (RuneError, 1)
            | String c2 r2 =>
              let b2 := byteZ c2 in
              if (b2 <? locb) || (hicb <? b2) then (RuneError, 1)
              else if sz <=? 3 then
                (Z.lor (Z.lor (Z.shiftl (Z.land b0 mask3) 12)
                              (Z.shiftl (Z.land b1 maskx) 6))
                       (Z.land b2 maskx), 3)
              else
                match r2 with
                | EmptyString => (RuneError, 1)
                | String c3 _ =>
                  let b3 := byteZ c3 in
                  if (b3 <? locb) || (hicb <? b3) then (RuneError, 1)
                  else
                    (Z.lor (Z.lor (Z.lor (Z.shiftl (Z.land b0 mask4) 18)
                                         (Z.shiftl (Z.land b1 maskx) 12))
                                  (Z.shiftl (Z.land b2 maskx) 6))
                           (Z.land b3 maskx), 4)
                end
            end
        end
  end.

(** [AppendRune] to the empty buffer: the UTF-8 encoding of [r].  Runes
    out of range and surrogates are written as [RuneError]. *)
Definition EncodeRune (r : Z) : string :=
  if (0 <=? r) && (r <=? rune1Max) then String (byteOf r) ""
  else if (0 <=? r) && (r <=? rune2Max) then
    String (byteOf (Z.lor t2 (Z.shiftr r 6)))
      (String (byteOf (Z.lor tx (Z.land r maskx))) "")
  else
    let r' :=
      if (r <? 0) || (MaxRune <? r)
         || ((surrogateMin <=? r) && (r <=? surrogateMax))
      then RuneError else r in
    if r' <=? rune3Max then
      String (byteOf (Z.lor t3 (Z.shiftr r' 12)))
        (String (byteOf (Z.lor tx (Z.land (Z.shiftr r' 6) maskx)))
          (String (byteOf (Z.lor tx (Z.land r' maskx))) ""))
    else
      String (byteOf (Z.lor t4 (Z.shiftr r' 18)))
        (String (byteOf (Z.lor tx (Z.land (Z.shiftr r' 12) maskx)))
          (String (byteOf (Z.lor tx (Z.land (Z.shiftr r' 6) maskx)))
            (String (byteOf (Z.lor tx (Z.land r' maskx))) ""))).

(** What [for _, c := range s] visits: each rune of [s] with the bytes
    it was decoded from.  [skip] counts the bytes of the current rune
    still to be passed over. *)
Fixpoint rangeFrom (skip : nat) (s : string) : list (Z * string) :=
  match s with
  | EmptyString => []
  | String _ s' =>
    match skip with
    | S k => rangeFrom k s'
    | O =>
      let (r, w) := DecodeRuneInString s in
      (r, take (Z.to_nat w) s) :: rangeFrom (Z.to_nat w - 1) s'
    end
  end.

Definition range (s : string) : list (Z * string) := rangeFrom 0 s.

End utf8.

(** ** Package unicode *)

Module unicode.

Definition MaxASCII : Z := 0x7F.

Section CaseTables.

(** [To(LowerCase, r)], the lookup in the table [CaseRanges]; only
    runes above [MaxASCII] reach it. *)
Variable To_LowerCase : Z -> Z.

Definition ToLower (r : Z) : Z :=
  if r <=? MaxASCII then
    if (byteZ "A" <=? r) && (r <=? byteZ "Z")
    then r + (byteZ "a" - byteZ "A")
    else r
  else To_LowerCase r.

End CaseTables.

End unicode.

(** ** Package strings *)

Module strings.

Fixpoint allBytes (p : ascii -> bool) (s : string) : bool :=
  match s with
  | EmptyString => true
  | String b s' => p b && allBytes p s'
  end.

Fixpoint anyByte (p : ascii -> bool) (s : string) : bool :=
  match s with
  | EmptyString => false
  | String b s' => p b || anyByte p s'
  end.

Fixpoint mapBytes (f : ascii -> ascii) (s : string) : string :=
  match s with
  | EmptyString => EmptyString
  | String b s' => String (f b) (mapBytes f s')
  end.

(** [HasPrefix]: [len(s) >= len(prefix) && s[:len(prefix)] == prefix]. *)
Definition HasPrefix (s prefix : string) : bool :=
  (len s >=? len prefix)
  && String.eqb (take (String.length prefix) s) prefix.

(** [Index]: the index of the first instance of [substr] in [s], or
    [-1] when there is none. *)
Fixpoint Index (s substr : string) : Z :=
  if HasPrefix s substr then 0
  else
    match s with
    | EmptyString => -1
    | String _ s' =>
      let i := Index s' substr in
      if i =? -1 then -1 else i + 1
    end.

(** [Contains]: [Index(s, substr) >= 0]. *)
Definition Contains (s substr : string) : bool := Index s substr >=? 0.

(** [Count] for a non-empty [substr]: the number of non-overlapping
    instances of [substr] in [s].  [skip] counts the bytes of the last
    instance still to be passed over. *)
Fixpoint countFrom (skip : nat) (s substr : string) : Z :=
  match s with
  | EmptyString => 0
  | String _ s' =>
    match skip with
    | S k => countFrom k s' substr
    | O =>
      if HasPrefix s substr
      then 1 + countFrom (String.length substr - 1) s' substr
      else countFrom 0 s' substr
    end
  end.

Definition Count (s substr : string) : Z := countFrom 0 s substr.

(** The loop of [genSplit] with [sepSave = 0]: [k] is the number of
    fields still to be cut off, [n - 1 - i] in the source. *)
Fixpoint splitLoop (k : nat) (s sep : string) : list string :=
  match k with
  | O => [s]
  | S k' =>
    let m := Index s sep in
    if m <? 0 then [s]
    else
      take (Z.to_nat m) s
        :: splitLoop k' (drop (Z.to_nat (m + len sep)) s) sep
  end.

(** [Split] for a non-empty separator ([genSplit(s, sep, 0, -1)], where
    [n = Count(s, sep) + 1]).  The empty separator, which splits after
    each UTF-8 sequence, has no call site here and is not covered. *)
Definition Split (s sep : string) : list string :=
  splitLoop (Z.to_nat (Count s sep)) s sep.

(** The set of bytes of an ASCII [cutset] ([asciiSet.contains]). *)
Definition contains (cutset : string) (b : ascii) : bool :=
  anyByte (Ascii.eqb b) cutset.

Fixpoint trimLeftASCII (s cutset : string) : string :=
  match s with
  | EmptyString => EmptyString
  | String b s' => if contains cutset b then trimLeftASCII s' cutset else s
  end.

(** The source drops the last byte while it is in the set; here the
    same string is computed from the left: a byte goes when it is in the
    set and everything after it went. *)
Fixpoint trimRightASCII (s cutset : string) : string :=
  match s with
  | EmptyString => EmptyString
  | String b s' =>
    match trimRightASCII s' cutset with
    | EmptyString => if contains cutset b then EmptyString else String b ""
    | t => String b t
    end
  end.

(** [Trim] for a [cutset] of ASCII bytes: all leading and trailing
    bytes of [s] that are in [cutset] are removed.  (With a cutset that
    has a byte above 0x7F the source trims by runes; there is no such
    call site here.) *)
Definition Trim (s cutset : string) : string :=
  if String.eqb s "" || String.eqb cutset "" then s
  else trimLeftASCII (trimRightASCII s cutset) cutset.

Section Mapping.

Variable mapping : Z -> Z.

Definition writeRune (r : Z) : string :=
  if r >=? 0 then utf8.EncodeRune r else "".

(** The second loop of [Map]: every rune is mapped and written. *)
Fixpoint mapRest (cs : list (Z * string)) : string :=
  match cs with
  | [] => ""
  | (c, _) :: cs' => writeRune (mapping c) ++ mapRest cs'
  end.

(** The first loop of [Map]: the bytes are kept up to the first rune
    that the mapping changes or that is an invalid byte; [None] when
    there is no such rune. *)
Fixpoint mapFirst (cs : list (Z * string)) : option string :=
  match cs with
  | [] => None
  | (c, raw) :: cs' =>
    let r := mapping c in
    if (r =? c) && negb (c =? utf8.RuneError)
    then option_map (append raw) (mapFirst cs')
    else if (c =? utf8.RuneError) && negb (len raw =? 1) && (r =? c)
    then option_map (append raw) (mapFirst cs')
    else Some (writeRune r ++ mapRest cs')
  end.

Definition Map (s : string) : string :=
  match mapFirst (utf8.range s) with
  | None => s
  | Some out => out
  end.

End Mapping.

Section Lower.

Variable To_LowerCase : Z -> Z.

Definition isUpperByte (b : ascii) : bool :=
  (byteZ "A" <=? byteZ b) && (byteZ b <=? byteZ "Z").

Definition lowerByte (b : ascii) : ascii :=
  if isUpperByte b then byteOf (byteZ b + (byteZ "a" - byteZ "A")) else b.

(** [ToLower]: an ASCII string without upper-case letters is returned
    as it is, other ASCII strings have their letters A-Z replaced, and
    a string with a byte above 0x7F goes through
    [Map(unicode.ToLower, s)]. *)
Definition ToLower (s : string) : string :=
  let isASCII := allBytes (fun b => byteZ b <? utf8.RuneSelf) s in
  let hasUpper := anyByte isUpperByte s in
  if isASCII then
    if negb hasUpper then s else mapBytes lowerByte s
  else Map (unicode.ToLower To_LowerCase) s.

End Lower.

End strings.

(** ** Package strconv *)

Module strconv.

Definition lowerhex : string := "0123456789abcdef".

(** [lowerhex[i]]. *)
Definition hexDigit (i : Z) : ascii :=
  match String.get (Z.to_nat i) lowerhex with
  | Some d => d
  | None => "0"%char
  end.

(** The digits [lowerhex[r>>s & 0xF]] for [s = 4*(n-1), ..., 4, 0]. *)
Fixpoint hexDigits (n : nat) (r : Z) : string :=
  match n with
  | O => ""
  | S n' =>
    String (hexDigit (Z.land (Z.shiftr r (4 * Z.of_nat n')) 0xF))
           (hexDigits n' r)
  end.

Definition ValidRune (r : Z) : bool :=
  ((0 <=? r) && (r <? utf8.surrogateMin))
  || ((utf8.surrogateMax <? r) && (r <=? utf8.MaxRune)).

Section PrintTables.

(** The search of [IsPrint] in the tables [isPrint16], [isNotPrint16],
    [isPrint32] and [isNotPrint32]; only runes above 0xFF reach it. *)
Variable isPrintTable : Z -> bool.

Definition IsPrint (r : Z) : bool :=
  if r <=? 0xFF then
    if (0x20 <=? r) && (r <=? 0x7E) then true
    else if (0xA1 <=? r) && (r <=? 0xFF) then negb (r =? 0xAD)
    else false
  else isPrintTable r.

(** [appendEscapedRune] with [ASCIIonly] and [graphicOnly] false, as
    [Quote] calls it: what is appended for the rune [r]. *)
Definition escapedRune (r : Z) (quote : ascii) : string :=
  if (r =? byteZ quote) || (r =? byteZ "\") then
    String "\" (String (byteOf r) "")
  else if IsPrint r then utf8.EncodeRune r
  else if r =? 7 then "\a"
  else if r =? 8 then "\b"
  else if r =? 12 then "\f"
  else if r =? 10 then "\n"
  else if r =? 13 then "\r"
  else if r =? 9 then "\t"
  else if r =? 11 then "\v"
  else if (r <? byteZ " ") || (r =? 0x7F) then
    "\x" ++ String (hexDigit (Z.shiftr (byteZ (byteOf r)) 4))
              (String (hexDigit (Z.land (byteZ (byteOf r)) 0xF)) "")
  else
    let r' := if negb (ValidRune r) then 0xFFFD else r in
    if r' <? 0x10000 then "\u" ++ hexDigits 4 r'
    else "\U" ++ hexDigits 8 r'.

(** The loop of [appendQuotedWith] over the runes of the string. *)
Fixpoint quotedRunes (cs : list (Z * string)) (quote : ascii) : string :=
  match cs with
  | [] => ""
  | (r, raw) :: cs' =>
    (if (len raw =? 1) && (r =? utf8.RuneError) then
       match raw with
       | String b0 _ =>
         "\x" ++ String (hexDigit (Z.shiftr (byteZ b0) 4))
                   (String (hexDigit (Z.land (byteZ b0) 0xF)) "")
       | EmptyString => ""
       end
     else escapedRune r quote)
    ++ quotedRunes cs' quote
  end.

(** [Quote]: a double-quoted Go string literal for [s]. *)
Definition Quote (s : string) : string :=
  String dquote (quotedRunes (utf8.range s) dquote ++ String dquote "").

End PrintTables.

End strconv.

(** ** Packages errors and fmt *)

(** An error value: [errors.New] and [fmt.Errorf] (without [%w]) both
    build an [*errors.errorString], which carries its message only. *)
Inductive error : Type :=
| errorString (s : string).

Definition Error (e : error) : string :=
  match e with errorString s => s end.

Module errors.
Definition New (text : string) : error := errorString text.
End errors.

Module fmt.

Section Verbs.

Variable isPrintTable : Z -> bool.

(** [Sprintf] for a format whose only verb is [%q], without flags,
    applied to string operands: each [%q] is replaced by the next
    operand quoted, the other bytes are copied. *)
Fixpoint Sprintf (format : string) (a : list string) : string :=
  match format with
  | String "%" (String "q" rest) =>
    match a with
    | x :: a' => strconv.Quote isPrintTable x ++ Sprintf rest a'
    | [] => "%!q(MISSING)" ++ Sprintf rest []
    end
  | String b rest => String b (Sprintf rest a)
  | EmptyString => ""
  end.

Definition Errorf (format : string) (a : list string) : error :=
  errors.New (Sprintf format a).

End Verbs.

End fmt.

(** ** Results, panics and calls to collaborators *)

(** A Go function returning [(T, error)] either returns a value with a
    nil error or an error; indexing and slicing out of range panic. *)
Inductive result (A : Type) : Type :=
| Ok (a : A)
| Err (e : error)
| Panic.

Arguments Ok {A} a.
Arguments Err {A} e.
Arguments Panic {A}.

(** The calls that leave the package: to [get.RelaxedJSONPathExpression]
    of kubectl and to [New] and [Parse] of client-go's jsonpath. *)
Inductive Call : Type :=
| CallRelaxedJSONPathExpression (pathExpression : string)
| CallNew (name : string)
| CallParse (text : string).

(** A computation threads the log of the calls made so far. *)
Definition M (A : Type) : Type := list Call -> result A * list Call.

Definition ret {A} (a : A) : M A := fun log => (Ok a, log).
Definition fail {A} (e : error) : M A := fun log => (Err e, log).
Definition panic {A} : M A := fun log => (Panic, log).

Definition bind {A B} (m : M A) (k : A -> M B) : M B :=
  fun log =>
    match m log with
    | (Ok a, log') => k a log'
    | (Err e, log') => (Err e, log')
    | (Panic, log') => (Panic, log')
    end.

(** A call [c] whose callee answers [r]. *)
Definition call {A} (c : Call) (r : result A) : M A :=
  fun log => (r, (log ++ [c])%list).

(** An operation that panics when it is out of range. *)
Definition checked {A} (o : option A) : M A :=
  match o with
  | Some a => ret a
  | None => panic
  end.

Notation "x <- m ;; k" := (bind m (fun x => k))
  (at level 61, m at next level, right associativity).
Notation "' p <- m ;; k" := (bind m (fun x => match x with p => k end))
  (at level 61, p pattern, m at next level, right associativity).

(** What a computation returns and which calls it makes, from the empty
    log. *)
Definition returned {A} (m : M A) : result A := fst (m []).
Definition calls {A} (m : M A) : list Call := snd (m []).

(** ** The parser of wait conditions *)

Section Wait.

(** [*jsonpath.JSONPath] and [io.Writer]. *)
Variable JSONPath : Type.
Variable Writer : Type.

(** The Unicode tables of the standard library. *)
Variable To_LowerCase : Z -> Z.
Variable isPrintTable : Z -> bool.

(** The collaborators: [get.RelaxedJSONPathExpression], [jsonpath.New]
    and the method [Parse], which fills the parser it is called on and
    is modelled as returning the filled parser. *)
Variable RelaxedJSONPathExpression : string -> result string.
Variable jsonpath_New : string -> JSONPath.
Variable Parse : JSONPath -> string -> result JSONPath.

(** Modelled from the spec: the constructors [NewDeletionWaiter],
    [NewConditionalWaiter] and [NewJSONPathWaiter] are called by
    [waiterFor] and declared elsewhere in the package.  A waiter is one
    of three kinds (deletion, named condition with a name and an
    expected value, path query with a compiled path and an expected
    value) and carries the diagnostics sink it was built with. *)
Inductive Waiter : Type :=
| NewDeletionWaiter
| NewConditionalWaiter (conditionName conditionValue : string)
                       (errOut : Writer)
| NewJSONPathWaiter (jsonPathCond : string) (j : JSONPath)
                    (errOut : Writer).

(** The cutset of the raw string literal with a single and a double
    quote. *)
Definition quotes : string := String "'" (String dquote "").

Definition ErrEmptyExpression : error :=
  errors.New "jsonpath expression cannot be empty".
Definition ErrEmptyCondition : error :=
  errors.New "jsonpath wait condition cannot be empty".
Definition ErrMalformedJSONPath : error :=
  fmt.Errorf isPrintTable
    "jsonpath wait format must be --for=jsonpath='{.status.readyReplicas}'=3"
    [].
Definition ErrUnrecognizedCondition (condition : string) : error :=
  fmt.Errorf isPrintTable "unrecognized condition: %q" [condition].

Definition newJSONPathParser (jsonPathExpression : string) : M JSONPath :=
  j <- call (CallNew "wait") (Ok (jsonpath_New "wait")) ;;
  if String.eqb jsonPathExpression "" then fail ErrEmptyExpression
  else
    j <- call (CallParse jsonPathExpression) (Parse j jsonPathExpression) ;;
    ret j.

Definition processJSONPathInput (jsonPathExpression jsonPathCond : string)
  : M (string * string) :=
  relaxedJSONPathExp <-
    call (CallRelaxedJSONPathExpression jsonPathExpression)
         (RelaxedJSONPathExpression jsonPathExpression) ;;
  if String.eqb jsonPathCond "" then fail ErrEmptyCondition
  else
    let jsonPathCond := strings.Trim jsonPathCond quotes in
    ret (relaxedJSONPathExp, jsonPathCond).

Definition waiterFor (condition : string) (errOut : Writer) : M Waiter :=
  if String.eqb (strings.ToLower To_LowerCase condition) "delete" then
    ret NewDeletionWaiter
  else if strings.HasPrefix condition "condition=" then
    conditionName <- checked (sliceFrom condition (len "condition=")) ;;
    let conditionValue := "true" in
    let equalsIndex := strings.Index conditionName "=" in
    if negb (equalsIndex =? -1) then
      conditionValue <- checked (sliceFrom conditionName (equalsIndex + 1)) ;;
      conditionName <- checked (slice conditionName 0 equalsIndex) ;;
      ret (NewConditionalWaiter conditionName conditionValue errOut)
    else
      ret (NewConditionalWaiter conditionName conditionValue errOut)
  else if strings.HasPrefix condition "jsonpath=" then
    let splitStr := strings.Split condition "=" in
    if negb (Z.of_nat (List.length splitStr) =? 3) then
      fail ErrMalformedJSONPath
    else
      splitStr1 <- checked (elemAt splitStr 1) ;;
      splitStr2 <- checked (elemAt splitStr 2) ;;
      '(jsonPathExp, jsonPathCond) <-
        processJSONPathInput splitStr1 splitStr2 ;;
      j <- newJSONPathParser jsonPathExp ;;
      ret (NewJSONPathWaiter jsonPathCond j errOut)
  else
    fail (ErrUnrecognizedCondition condition).

(** The rest of [waiterFor] once the arity check of the jsonpath branch
    is passed with the fields [p] and [v]; the statements about that
    branch refer to it. *)
Definition afterArityCheck (p v : string) (errOut : Writer) : M Waiter :=
  '(jsonPathExp, jsonPathCond) <- processJSONPathInput p v ;;
  j <- newJSONPathParser jsonPathExp ;;
  ret (NewJSONPathWaiter jsonPathCond j errOut).

End Wait.

(** ** Notions used in the statements *)

(** The byte [c] occurs in [s]. *)
Definition hasByte (c : ascii) (s : string) : bool :=
  strings.anyByte (Ascii.eqb c) s.

(** The fields of [s] between the occurrences of the byte [c]. *)
Fixpoint fields (c : ascii) (s : string) : list string :=
  match s with
  | EmptyString => [""]
  | String b s' =>
    if Ascii.eqb b c then "" :: fields c s'
    else
      match fields c s' with
      | f :: fs => String b f :: fs
      | [] => [String b ""]
      end
  end.

(** A single or a double quote; a string of quotes only; a string that
    starts, or ends, with a quote. *)
Definition isQuote (b : ascii) : bool :=
  Ascii.eqb b "'" || Ascii.eqb b dquote.

Definition allQuotes (s : string) : bool := strings.allBytes isQuote s.

Definition startsQuoted (s : string) : bool :=
  match s with
  | EmptyString => false
  | String b _ => isQuote b
  end.

Fixpoint endsQuoted (s : string) : bool :=
  match s with
  | EmptyString => false
  | String b EmptyString => isQuote b
  | String _ s' => endsQuoted s'
  end.

(** A printable ASCII byte other than the double quote and the
    backslash: the bytes that [%q] copies as they are. *)
Definition plainByte (b : ascii) : bool :=
  (0x20 <=? byteZ b) && (byteZ b <=? 0x7E)
  && negb (Ascii.eqb b dquote) && negb (Ascii.eqb b "\").

(** A computation that only appends its calls to the log: what it
    returns and what it appends do not depend on the log it starts
    from. *)
Definition logIndependent {A} (m : M A) : Prop :=
  forall log, m log = (returned m, (log ++ calls m)%list).

(** ** An instance of the collaborators *)

(** The examples below run the parser with these collaborators.  The
    relaxer follows kubectl's [get.RelaxedJSONPathExpression]: the empty
    string is returned as it is; [name1.name2], [.name1.name2],
    [{name1.name2}] and [{.name1.name2}] become [{.name1.name2}]; any other
    string is an error.  The parser accepts every text and keeps it. *)
Module Sample.

Definition noBrace (s : string) : bool :=
  strings.allBytes (fun b => negb (Ascii.eqb b "{" || Ascii.eqb b "}")) s.

(** The field path matched by [\.?([^{}]+)] on the whole of [s]. *)
Definition fieldSpec (s : string) : option string :=
  match s with
  | String "." (String b s') =>
    if noBrace (String b s') then Some (String b s')
    else None
  | String _ _ => if noBrace s then Some s else None
  | EmptyString => None
  end.

(** [s] without its last byte, when that byte is the closing brace. *)
Fixpoint beforeClosingBrace (s : string) : option string :=
  match s with
  | EmptyString => None
  | String "}" EmptyString => Some ""
  | String b s' => option_map (String b) (beforeClosingBrace s')
  end.

Definition relaxError : error :=
  errorString
    "unexpected path string, expected a 'name1.name2' or '.name1.name2' or '{name1.name2}' or '{.name1.name2}'".

Definition RelaxedJSONPathExpression (pathExpression : string)
  : result string :=
  if len pathExpression =? 0 then Ok pathExpression
  else
    let inner :=
      match pathExpression with
      | String "{" s' =>
        match beforeClosingBrace s' with
        | Some m => fieldSpec m
        | None => None
        end
      | _ => fieldSpec pathExpression
      end in
    match inner with
    | Some f => Ok ("{." ++ f ++ "}")
    | None => Err relaxError
    end.

Definition JSONPath : Type := string * string.
Definition jsonpath_New (name : string) : JSONPath := (name, "").
Definition Parse (j : JSONPath) (text : string) : result JSONPath :=
  Ok (fst j, text).

(** No case mapping and no printable rune above 0xFF: the examples are
    ASCII strings, which never reach the tables. *)
Definition To_LowerCase (r : Z) : Z := r.
Definition isPrintTable (r : Z) : bool := false.

Definition processJSONPathInput : string -> string -> M (string * string) :=
  processJSONPathInput RelaxedJSONPathExpression.

Definition newJSONPathParser : string -> M JSONPath :=
  newJSONPathParser JSONPath jsonpath_New Parse.

Definition waiterFor : string -> unit -> M (Waiter JSONPath unit) :=
  waiterFor JSONPath unit To_LowerCase isPrintTable
            RelaxedJSONPathExpression jsonpath_New Parse.

End Sample.

(** * Properties *)

(** ** Strings, slices and prefixes *)

Lemma append_empty_r (s : string) : s ++ "" = s.
Proof. induction s as [|b s IH]; simpl; [reflexivity | now rewrite IH]. Qed.

Lemma append_assoc (a b c : string) : (a ++ b) ++ c = a ++ b ++ c.
Proof. induction a as [|x a IH]; simpl; [reflexivity | now rewrite IH]. Qed.

Lemma length_append (a b : string) :
  String.length (a ++ b) = (String.length a + String.length b)%nat.
Proof. induction a as [|x a IH]; simpl; [reflexivity | now rewrite IH]. Qed.

Lemma len_append (a b : string) : len (a ++ b) = len a + len b.
Proof. unfold len. rewrite length_append. lia. Qed.

Lemma len_nonneg (s : string) : 0 <= len s.
Proof. unfold len. lia. Qed.

Lemma len_String (b : ascii) (s : string) : len (String b s) = len s + 1.
Proof. unfold len. simpl String.length. lia. Qed.

Lemma take_append (p r : string) : take (String.length p) (p ++ r) = p.
Proof. induction p as [|x p IH]; simpl; [now destruct r | now rewrite IH]. Qed.

Lemma drop_append (p r : string) : drop (String.length p) (p ++ r) = r.
Proof. induction p as [|x p IH]; simpl; [reflexivity | exact IH]. Qed.

Lemma take_length (s : string) : take (String.length s) s = s.
Proof. induction s as [|b s IH]; simpl; [reflexivity | now rewrite IH]. Qed.

Lemma take_drop (n : nat) (s : string) : take n s ++ drop n s = s.
Proof.
  revert s. induction n as [|n IH]; intros [|b s]; simpl; try reflexivity.
  now rewrite IH.
Qed.

Lemma length_take_le (n : nat) (s : string) :
  (String.length s <= n)%nat -> take n s = s.
Proof.
  revert s. induction n as [|n IH]; intros [|b s]; simpl; intros H;
    try reflexivity; try lia.
  rewrite IH; [reflexivity | lia].
Qed.

Lemma length_drop (n : nat) (s : string) :
  String.length (drop n s) = (String.length s - n)%nat.
Proof.
  revert s. induction n as [|n IH]; intros [|b s]; simpl; try reflexivity.
  apply IH.
Qed.

(** Slicing within the bounds does not panic. *)
Lemma sliceFrom_in_range (s : string) (lo : Z) :
  0 <= lo <= len s -> sliceFrom s lo = Some (drop (Z.to_nat lo) s).
Proof.
  intros [H0 H1]. unfold sliceFrom, slice.
  replace ((0 <=? lo) && (lo <=? len s) && (len s <=? len s)) with true
    by (symmetry; rewrite !andb_true_iff, !Z.leb_le; lia).
  f_equal. apply length_take_le. rewrite length_drop. unfold len in *. lia.
Qed.

Lemma slice_prefix_in_range (s : string) (hi : Z) :
  0 <= hi <= len s -> slice s 0 hi = Some (take (Z.to_nat hi) s).
Proof.
  intros [H0 H1]. unfold slice.
  replace ((0 <=? 0) && (0 <=? hi) && (hi <=? len s)) with true
    by (symmetry; rewrite !andb_true_iff, !Z.leb_le; lia).
  now rewrite Z.sub_0_r.
Qed.

Lemma sliceFrom_append (p r : string) : sliceFrom (p ++ r) (len p) = Some r.
Proof.
  rewrite sliceFrom_in_range.
  - unfold len. now rewrite Nat2Z.id, drop_append.
  - rewrite len_append. pose proof (len_nonneg p). pose proof (len_nonneg r).
    lia.
Qed.

Lemma HasPrefix_append (p r : string) : strings.HasPrefix (p ++ r) p = true.
Proof.
  unfold strings.HasPrefix. rewrite take_append, String.eqb_refl, andb_true_r.
  rewrite len_append. pose proof (len_nonneg r). apply Z.geb_le. lia.
Qed.

Lemma HasPrefix_inv (s p : string) :
  strings.HasPrefix s p = true -> s = p ++ drop (String.length p) s.
Proof.
  unfold strings.HasPrefix. rewrite andb_true_iff, String.eqb_eq.
  intros [_ H]. rewrite <- H at 1. now rewrite take_drop.
Qed.

Lemma HasPrefix_byte (b c : ascii) (s : string) :
  strings.HasPrefix (String b s) (String c "") = Ascii.eqb b c.
Proof.
  unfold strings.HasPrefix. rewrite !len_String.
  replace (len s + 1 >=? len "" + 1) with true
    by (symmetry; apply Z.geb_le; pose proof (len_nonneg s); unfold len at 1;
        simpl; lia).
  simpl. destruct (Ascii.eqb b c); reflexivity.
Qed.

Lemma HasPrefix_byte_empty (c : ascii) :
  strings.HasPrefix "" (String c "") = false.
Proof. reflexivity. Qed.

(** ** Searching for a byte and splitting at it *)

Section SingleByte.

Variable c : ascii.

Let sep : string := String c "".

Lemma hasByte_append (a b : string) :
  hasByte c (a ++ b) = hasByte c a || hasByte c b.
Proof.
  induction a as [|x a IH]; simpl; [reflexivity |].
  unfold hasByte in *. simpl. now rewrite IH, orb_assoc.
Qed.

(** A string in which [c] occurs is cut at the first occurrence. *)
Lemma hasByte_cut (s : string) :
  hasByte c s = true ->
  exists a b, s = a ++ String c b /\ hasByte c a = false.
Proof.
  induction s as [|x s IH]; [discriminate |].
  unfold hasByte in *. simpl.
  destruct (Ascii.eqb c x) eqn:E.
  - intros _. apply Ascii.eqb_eq in E. subst x. now exists "", s.
  - simpl. intros H. destruct (IH H) as (a & b & -> & Ha).
    exists (String x a), b. simpl. now rewrite E, Ha.
Qed.

Lemma Index_absent (s : string) :
  hasByte c s = false -> strings.Index s sep = -1.
Proof.
  induction s as [|x s IH]; [reflexivity |].
  unfold hasByte in *. simpl strings.anyByte.
  rewrite orb_false_iff. intros [E H].
  simpl strings.Index. fold sep. unfold sep at 1.
  rewrite HasPrefix_byte, Ascii.eqb_sym, E. now rewrite (IH H).
Qed.

Lemma Index_first (a b : string) :
  hasByte c a = false -> strings.Index (a ++ String c b) sep = len a.
Proof.
  induction a as [|x a IH]; intros H.
  - simpl append. simpl strings.Index. fold sep. unfold sep at 1.
    now rewrite HasPrefix_byte, Ascii.eqb_refl.
  - unfold hasByte in *. simpl strings.anyByte in H.
    rewrite orb_false_iff in H. destruct H as [E H].
    simpl append. simpl strings.Index. fold sep. unfold sep at 1.
    rewrite HasPrefix_byte, Ascii.eqb_sym, E, (IH H), len_String.
    pose proof (len_nonneg a).
    destruct (Z.eqb_spec (len a) (-1)); [lia | reflexivity].
Qed.

Lemma Index_present (s : string) :
  hasByte c s = true -> 0 <= strings.Index s sep.
Proof.
  intros H. destruct (hasByte_cut s H) as (a & b & -> & Ha).
  rewrite Index_first by assumption. apply len_nonneg.
Qed.

Lemma Count_step (x : ascii) (s : string) :
  strings.Count (String x s) sep
  = (if Ascii.eqb x c then 1 else 0) + strings.Count s sep.
Proof.
  unfold strings.Count. simpl strings.countFrom. fold sep. unfold sep at 1.
  rewrite HasPrefix_byte. now destruct (Ascii.eqb x c).
Qed.

Lemma Count_nonneg (s : string) : 0 <= strings.Count s sep.
Proof.
  induction s as [|x s IH]; [reflexivity |].
  rewrite Count_step. destruct (Ascii.eqb x c); lia.
Qed.

Lemma Count_absent (s : string) :
  hasByte c s = false -> strings.Count s sep = 0.
Proof.
  induction s as [|x s IH]; [reflexivity |].
  unfold hasByte in *. simpl strings.anyByte.
  rewrite orb_false_iff. intros [E H].
  rewrite Count_step, Ascii.eqb_sym, E. now rewrite (IH H).
Qed.

Lemma Count_append (a b : string) :
  strings.Count (a ++ b) sep = strings.Count a sep + strings.Count b sep.
Proof.
  induction a as [|x a IH]; [reflexivity |].
  simpl append. rewrite !Count_step, IH. lia.
Qed.

Lemma Count_present (s : string) :
  hasByte c s = true -> 0 < strings.Count s sep.
Proof.
  intros H. destruct (hasByte_cut s H) as (a & b & -> & Ha).
  rewrite Count_append, Count_step, Ascii.eqb_refl.
  pose proof (Count_nonneg a). pose proof (Count_nonneg b). lia.
Qed.

Lemma fields_nonempty (s : string) : fields c s <> [].
Proof.
  induction s as [|x s IH]; simpl; [discriminate |].
  destruct (Ascii.eqb x c); [discriminate |].
  destruct (fields c s); discriminate.
Qed.

Lemma fields_absent (s : string) : hasByte c s = false -> fields c s = [s].
Proof.
  induction s as [|x s IH]; [reflexivity |].
  unfold hasByte in *. simpl strings.anyByte.
  rewrite orb_false_iff. intros [E H].
  simpl. now rewrite Ascii.eqb_sym, E, (IH H).
Qed.

Lemma fields_first (a b : string) :
  hasByte c a = false -> fields c (a ++ String c b) = a :: fields c b.
Proof.
  induction a as [|x a IH]; intros H.
  - simpl. now rewrite Ascii.eqb_refl.
  - unfold hasByte in *. simpl strings.anyByte in H.
    rewrite orb_false_iff in H. destruct H as [E H].
    simpl. now rewrite Ascii.eqb_sym, E, (IH H).
Qed.

Lemma length_fields (s : string) :
  Z.of_nat (List.length (fields c s)) = strings.Count s sep + 1.
Proof.
  induction s as [|x s IH]; [reflexivity |].
  rewrite Count_step. simpl fields.
  destruct (Ascii.eqb x c).
  - simpl List.length. lia.
  - pose proof (fields_nonempty s).
    destruct (fields c s) as [|f fs]; [congruence |].
    simpl List.length in *. lia.
Qed.

(** One turn of the loop of [genSplit] cuts off the first field. *)
Lemma splitLoop_first (k : nat) (a b : string) :
  hasByte c a = false ->
  strings.splitLoop (S k) (a ++ String c b) sep
  = a :: strings.splitLoop k b sep.
Proof.
  intros H. simpl strings.splitLoop. rewrite (Index_first a b H).
  pose proof (len_nonneg a).
  destruct (Z.ltb_spec (len a) 0); [lia |].
  unfold len at 1. rewrite Nat2Z.id, take_append. f_equal. f_equal.
  replace (Z.to_nat (len a + len sep)) with (String.length (a ++ sep)).
  - replace (a ++ String c b) with ((a ++ sep) ++ b)
      by (now rewrite append_assoc).
    apply drop_append.
  - rewrite length_append. unfold len. simpl String.length. lia.
Qed.

Lemma splitLoop_fields (k : nat) (s : string) :
  Z.to_nat (strings.Count s sep) = k ->
  strings.splitLoop k s sep = fields c s.
Proof.
  revert s. induction k as [|k IH]; intros s Hk.
  - destruct (hasByte c s) eqn:H.
    + pose proof (Count_present s H). lia.
    + now rewrite fields_absent.
  - destruct (hasByte c s) eqn:H.
    + destruct (hasByte_cut s H) as (a & b & -> & Ha).
      rewrite splitLoop_first, fields_first by assumption.
      f_equal. apply IH.
      rewrite Count_append, Count_step, Ascii.eqb_refl in Hk.
      rewrite (Count_absent a Ha) in Hk. pose proof (Count_nonneg b). lia.
    + rewrite (Count_absent s H) in Hk. discriminate.
Qed.

(** [Split] at a single byte yields the fields between its
    occurrences. *)
Lemma Split_fields (s : string) : strings.Split s sep = fields c s.
Proof. unfold strings.Split. now apply splitLoop_fields. Qed.

Lemma length_Split (s : string) :
  Z.of_nat (List.length (strings.Split s sep)) = strings.Count s sep + 1.
Proof. rewrite Split_fields. apply length_fields. Qed.

End SingleByte.

(** ** Bytes, runes and lower case *)

Lemma byteZ_range (b : ascii) : 0 <= byteZ b < 256.
Proof.
  unfold byteZ. pose proof (N_ascii_bounded b). lia.
Qed.

Lemma byteOf_byteZ (b : ascii) : byteOf (byteZ b) = b.
Proof.
  unfold byteOf. rewrite Z.mod_small by apply byteZ_range.
  unfold byteZ. now rewrite N2Z.id, ascii_N_embedding.
Qed.

Lemma DecodeRuneInString_ascii (b : ascii) (s : string) :
  byteZ b < utf8.RuneSelf ->
  utf8.DecodeRuneInString (String b s) = (byteZ b, 1).
Proof.
  intros H. unfold utf8.DecodeRuneInString, utf8.first. cbv zeta.
  change utf8.RuneSelf with 0x80 in H.
  now rewrite (proj2 (Z.ltb_lt _ _) H).
Qed.

(** An ASCII byte is a rune of its own. *)
Lemma rangeFrom_ascii (b : ascii) (s : string) :
  byteZ b < utf8.RuneSelf ->
  utf8.rangeFrom 0 (String b s)
  = (byteZ b, String b "") :: utf8.rangeFrom 0 s.
Proof.
  intros H. cbn [utf8.rangeFrom].
  now rewrite (DecodeRuneInString_ascii b s H).
Qed.

Section LowerFacts.

Variable To_LowerCase : Z -> Z.

Lemma unicode_ToLower_not_upper (b : ascii) :
  byteZ b < utf8.RuneSelf -> strings.isUpperByte b = false ->
  unicode.ToLower To_LowerCase (byteZ b) = byteZ b.
Proof.
  intros H U. unfold unicode.ToLower.
  change utf8.RuneSelf with 0x80 in H. change unicode.MaxASCII with 0x7F.
  destruct (Z.leb_spec (byteZ b) 0x7F); [| lia].
  unfold strings.isUpperByte in U. now rewrite U.
Qed.

(** Lower-casing keeps a leading ASCII byte that is not an upper-case
    letter, on the ASCII path and on the path through [Map]. *)
Lemma ToLower_head (b : ascii) (s : string) :
  byteZ b < utf8.RuneSelf -> strings.isUpperByte b = false ->
  exists t, strings.ToLower To_LowerCase (String b s) = String b t.
Proof.
  intros H U. unfold strings.ToLower.
  cbn [strings.allBytes strings.anyByte].
  rewrite (proj2 (Z.ltb_lt _ _) H), U. cbn [andb orb].
  destruct (strings.allBytes _ s).
  - destruct (negb _).
    + now exists s.
    + cbn [strings.mapBytes]. unfold strings.lowerByte at 1. rewrite U.
      now eexists.
  - unfold strings.Map, utf8.range. rewrite (rangeFrom_ascii b s H).
    cbn [strings.mapFirst].
    rewrite (unicode_ToLower_not_upper b H U), Z.eqb_refl.
    change utf8.RuneSelf with 0x80 in H.
    replace (byteZ b =? utf8.RuneError) with false
      by (symmetry; apply Z.eqb_neq; change utf8.RuneError with 0xFFFD; lia).
    cbn [negb andb].
    destruct (strings.mapFirst _ _) as [out|]; cbn [option_map append];
      now eexists.
Qed.

Lemma ToLower_not_delete (b : ascii) (s : string) :
  byteZ b < utf8.RuneSelf -> strings.isUpperByte b = false ->
  b <> "d"%char ->
  String.eqb (strings.ToLower To_LowerCase (String b s)) "delete" = false.
Proof.
  intros H U D. destruct (ToLower_head b s H U) as [t ->].
  apply String.eqb_neq. congruence.
Qed.

Lemma ToLower_condition (rest : string) :
  String.eqb (strings.ToLower To_LowerCase ("condition=" ++ rest)) "delete"
  = false.
Proof.
  cbn [append]. apply ToLower_not_delete;
    [reflexivity | reflexivity | discriminate].
Qed.

Lemma ToLower_jsonpath (rest : string) :
  String.eqb (strings.ToLower To_LowerCase ("jsonpath=" ++ rest)) "delete"
  = false.
Proof.
  cbn [append]. apply ToLower_not_delete;
    [reflexivity | reflexivity | discriminate].
Qed.

End LowerFacts.

(** ** Trimming quotes *)

Lemma contains_quotes (b : ascii) : strings.contains quotes b = isQuote b.
Proof.
  unfold strings.contains, quotes, isQuote. cbn [strings.anyByte].
  now rewrite orb_false_r.
Qed.

Lemma trimLeftASCII_allQuotes (pre x : string) :
  allQuotes pre = true ->
  strings.trimLeftASCII (pre ++ x) quotes = strings.trimLeftASCII x quotes.
Proof.
  induction pre as [|b pre IH]; [reflexivity |].
  unfold allQuotes in *. cbn [strings.allBytes append strings.trimLeftASCII].
  rewrite andb_true_iff, contains_quotes. intros [-> H]. now apply IH.
Qed.

Lemma trimLeftASCII_unquoted (x : string) :
  startsQuoted x = false -> strings.trimLeftASCII x quotes = x.
Proof.
  destruct x as [|b x]; [reflexivity |].
  cbn [startsQuoted strings.trimLeftASCII]. rewrite contains_quotes.
  now intros ->.
Qed.

Lemma trimRightASCII_allQuotes (post : string) :
  allQuotes post = true -> strings.trimRightASCII post quotes = "".
Proof.
  induction post as [|b post IH]; [reflexivity |].
  unfold allQuotes in *. cbn [strings.allBytes strings.trimRightASCII].
  rewrite andb_true_iff, contains_quotes. intros [-> H]. now rewrite IH.
Qed.

Lemma trimRightASCII_unquoted (x : string) :
  endsQuoted x = false -> strings.trimRightASCII x quotes = x.
Proof.
  induction x as [|b x IH]; [reflexivity |].
  cbn [strings.trimRightASCII]. destruct x as [|b' x].
  - cbn [endsQuoted strings.trimRightASCII]. rewrite contains_quotes.
    now intros ->.
  - intros H. change (endsQuoted (String b' x) = false) in H.
    now rewrite (IH H).
Qed.

Lemma trimRightASCII_append_quotes (x post : string) :
  allQuotes post = true ->
  strings.trimRightASCII (x ++ post) quotes = strings.trimRightASCII x quotes.
Proof.
  intros H. induction x as [|b x IH].
  - cbn [append]. now rewrite trimRightASCII_allQuotes.
  - cbn [append strings.trimRightASCII]. now rewrite IH.
Qed.

Lemma endsQuoted_append (pre core : string) :
  core <> "" -> endsQuoted (pre ++ core) = endsQuoted core.
Proof.
  intros H. induction pre as [|b pre IH]; [reflexivity |].
  cbn [append]. rewrite <- IH.
  destruct (pre ++ core) as [|b' t] eqn:E; [| reflexivity].
  destruct pre; cbn [append] in E; [contradiction | discriminate].
Qed.

(** [Trim] removes every leading and every trailing quote, whatever their
    number, and nothing else. *)
Lemma Trim_layers (pre core post : string) :
  allQuotes pre = true -> allQuotes post = true ->
  startsQuoted core = false -> endsQuoted core = false ->
  strings.Trim (pre ++ core ++ post) quotes = core.
Proof.
  intros Hpre Hpost Hs He. unfold strings.Trim.
  destruct (String.eqb_spec (pre ++ core ++ post) "") as [E | _].
  - cbn [orb]. rewrite E.
    destruct pre; [| discriminate]. destruct core; [reflexivity | discriminate].
  - change (String.eqb quotes "") with false. cbn [orb].
    rewrite <- append_assoc, trimRightASCII_append_quotes by assumption.
    destruct core as [|b core].
    + rewrite append_empty_r, trimRightASCII_allQuotes by assumption.
      reflexivity.
    + rewrite trimRightASCII_unquoted
        by (rewrite endsQuoted_append; [assumption | discriminate]).
      rewrite trimLeftASCII_allQuotes by assumption.
      now apply trimLeftASCII_unquoted.
Qed.

(** ** Quoting with [%q] *)

Section QuoteFacts.

Variable isPrintTable : Z -> bool.

Lemma plainByte_ascii (b : ascii) :
  plainByte b = true -> byteZ b < utf8.RuneSelf.
Proof.
  unfold plainByte. rewrite !andb_true_iff, !Z.leb_le.
  change utf8.RuneSelf with 0x80. lia.
Qed.

(** A plain byte is written as it is. *)
Lemma escapedRune_plain (b : ascii) :
  plainByte b = true ->
  strconv.escapedRune isPrintTable (byteZ b) dquote = String b "".
Proof.
  destruct b as [[] [] [] [] [] [] [] []]; intros H;
    solve [discriminate H | reflexivity].
Qed.

Lemma quotedRunes_plain (s : string) :
  strings.allBytes plainByte s = true ->
  strconv.quotedRunes isPrintTable (utf8.range s) dquote = s.
Proof.
  unfold utf8.range. induction s as [|b s IH]; [reflexivity |].
  cbn [strings.allBytes]. rewrite andb_true_iff. intros [Hb Hs].
  pose proof (plainByte_ascii b Hb) as A.
  rewrite (rangeFrom_ascii b s A). cbn [strconv.quotedRunes].
  replace (byteZ b =? utf8.RuneError) with false.
  - rewrite andb_false_r, (escapedRune_plain b Hb), (IH Hs). reflexivity.
  - symmetry. apply Z.eqb_neq. change utf8.RuneSelf with 0x80 in A.
    change utf8.RuneError with 0xFFFD. lia.
Qed.

(** A string of plain bytes is quoted by putting it between double
    quotes. *)
Lemma Quote_plain (s : string) :
  strings.allBytes plainByte s = true ->
  strconv.Quote isPrintTable s = String dquote (s ++ String dquote "").
Proof.
  intros H. unfold strconv.Quote. now rewrite (quotedRunes_plain s H).
Qed.

Lemma Sprintf_unrecognized (condition : string) :
  fmt.Sprintf isPrintTable "unrecognized condition: %q" [condition]
  = "unrecognized condition: " ++ strconv.Quote isPrintTable condition.
Proof.
  cbn [fmt.Sprintf append]. now rewrite append_empty_r.
Qed.

End QuoteFacts.

Lemma Index_append_nonneg (a x s : string) :
  strings.HasPrefix x s = true -> 0 <= strings.Index (a ++ x) s.
Proof.
  intros H. induction a as [|b a IH].
  - cbn [append]. destruct x; cbn [strings.Index]; rewrite H; lia.
  - cbn [append strings.Index].
    destruct (strings.HasPrefix (String b (a ++ x)) s); [lia |].
    destruct (Z.eqb_spec (strings.Index (a ++ x) s) (-1)); lia.
Qed.

(** A string contains each of its substrings. *)
Lemma Contains_infix (a s b : string) :
  strings.Contains (a ++ s ++ b) s = true.
Proof.
  unfold strings.Contains. apply Z.geb_le, Index_append_nonneg.
  apply HasPrefix_append.
Qed.

(** ** Computations and the log of calls *)

Lemma run_pair {A} (m : M A) : m [] = (returned m, calls m).
Proof. unfold returned, calls. now destruct (m []). Qed.

Lemma logIndependent_ret {A} (a : A) : logIndependent (ret a).
Proof. intros log. cbn. now rewrite app_nil_r. Qed.

Lemma logIndependent_fail {A} (e : error) : logIndependent (@fail A e).
Proof. intros log. cbn. now rewrite app_nil_r. Qed.

Lemma logIndependent_panic {A} : logIndependent (@panic A).
Proof. intros log. cbn. now rewrite app_nil_r. Qed.

Lemma logIndependent_call {A} (c : Call) (r : result A) :
  logIndependent (call c r).
Proof. intros log. reflexivity. Qed.

Lemma logIndependent_checked {A} (o : option A) : logIndependent (checked o).
Proof.
  destruct o; [apply logIndependent_ret | apply logIndependent_panic].
Qed.

Lemma logIndependent_bind {A B} (m : M A) (k : A -> M B) :
  logIndependent m -> (forall a, logIndependent (k a)) ->
  logIndependent (bind m k).
Proof.
  intros Hm Hk log. unfold returned, calls, bind.
  rewrite (Hm log), (run_pair m).
  destruct (returned m) as [a | e |]; cbn [fst snd]; try reflexivity.
  rewrite (Hk a (log ++ calls m)%list), (Hk a (calls m)). cbn [fst snd].
  now rewrite app_assoc.
Qed.

Create HintDb log_independent.

#[local] Hint Resolve logIndependent_ret logIndependent_fail
  logIndependent_panic logIndependent_call logIndependent_checked
  : log_independent.

(** Goes through a computation written with [bind], [if] and [match]. *)
Ltac log_independent :=
  repeat first
    [ solve [auto with log_independent]
    | apply logIndependent_bind; [| intros ?]
    | match goal with
      | |- logIndependent (if ?b then _ else _) => destruct b
      | |- logIndependent (match ?x with _ => _ end) => destruct x
      end ].

(** Unfolds the three functions of the parser. *)
Ltac unfold_parser :=
  unfold waiterFor, afterArityCheck, processJSONPathInput, newJSONPathParser.

Ltac unfold_waiterFor := unfold waiterFor.
Ltac unfold_afterArityCheck := unfold afterArityCheck.

(** Unfolds the errors down to their messages. *)
Ltac unfold_errors :=
  unfold ErrUnrecognizedCondition, ErrMalformedJSONPath, ErrEmptyCondition,
    ErrEmptyExpression, fmt.Errorf, errors.New, Error.

Section WaitFacts.

Variable JSONPath : Type.
Variable Writer : Type.
Variable To_LowerCase : Z -> Z.
Variable isPrintTable : Z -> bool.
Variable RelaxedJSONPathExpression : string -> result string.
Variable jsonpath_New : string -> JSONPath.
Variable Parse : JSONPath -> string -> result JSONPath.

#[local] Abbreviation processJSONPathInput :=
  (processJSONPathInput RelaxedJSONPathExpression).
#[local] Abbreviation newJSONPathParser :=
  (newJSONPathParser JSONPath jsonpath_New Parse).
#[local] Abbreviation waiterFor :=
  (waiterFor JSONPath Writer To_LowerCase isPrintTable
             RelaxedJSONPathExpression jsonpath_New Parse).
#[local] Abbreviation afterArityCheck :=
  (afterArityCheck JSONPath Writer RelaxedJSONPathExpression jsonpath_New
                   Parse).
#[local] Abbreviation NewDeletionWaiter := (NewDeletionWaiter JSONPath Writer).
#[local] Abbreviation NewConditionalWaiter := (NewConditionalWaiter JSONPath Writer).
#[local] Abbreviation NewJSONPathWaiter := (NewJSONPathWaiter JSONPath Writer).
#[local] Abbreviation ErrMalformedJSONPath := (ErrMalformedJSONPath isPrintTable).
#[local] Abbreviation ErrUnrecognizedCondition :=
  (ErrUnrecognizedCondition isPrintTable).

Lemma processJSONPathInput_logIndependent (e c : string) :
  logIndependent (processJSONPathInput e c).
Proof. unfold_parser. log_independent. Qed.

Lemma newJSONPathParser_logIndependent (e : string) :
  logIndependent (newJSONPathParser e).
Proof. unfold_parser. log_independent. Qed.

Lemma waiterFor_logIndependent (condition : string) (errOut : Writer) :
  logIndependent (waiterFor condition errOut).
Proof.
  pose proof processJSONPathInput_logIndependent.
  pose proof newJSONPathParser_logIndependent.
  unfold_waiterFor. cbv zeta. log_independent.
Qed.


Lemma sliceFrom_after_byte (a b : string) (c : ascii) :
  sliceFrom (a ++ String c b) (len a + 1) = Some b.
Proof.
  replace (a ++ String c b) with ((a ++ String c "") ++ b)
    by (now rewrite append_assoc).
  replace (len a + 1) with (len (a ++ String c ""))
    by (rewrite len_append; reflexivity).
  apply sliceFrom_append.
Qed.

Lemma slice_before (a x : string) : slice (a ++ x) 0 (len a) = Some a.
Proof.
  rewrite slice_prefix_in_range.
  - unfold len. now rewrite Nat2Z.id, take_append.
  - rewrite len_append. pose proof (len_nonneg a). pose proof (len_nonneg x).
    lia.
Qed.

Lemma HasPrefix_jsonpath_condition (rest : string) :
  strings.HasPrefix ("jsonpath=" ++ rest) "condition=" = false.
Proof.
  unfold strings.HasPrefix. apply andb_false_intro2. reflexivity.
Qed.

(** *** The branch of named conditions *)

Lemma waiterFor_condition_bare (name : string) (errOut : Writer) log :
  hasByte "=" name = false ->
  waiterFor ("condition=" ++ name) errOut log
  = (Ok (NewConditionalWaiter name "true" errOut), log).
Proof.
  intros H. unfold_waiterFor.
  rewrite ToLower_condition, HasPrefix_append, sliceFrom_append.
  cbn [checked bind ret]. cbv zeta.
  now rewrite (Index_absent "=" name H).
Qed.

Lemma waiterFor_condition_valued (name value : string) (errOut : Writer) log :
  hasByte "=" name = false ->
  waiterFor ("condition=" ++ name ++ "=" ++ value) errOut log
  = (Ok (NewConditionalWaiter name value errOut), log).
Proof.
  intros H. unfold_waiterFor.
  rewrite ToLower_condition, HasPrefix_append, sliceFrom_append.
  cbn [checked bind ret]. cbv zeta. cbn [append].
  rewrite (Index_first "=" name value H).
  pose proof (len_nonneg name).
  destruct (Z.eqb_spec (len name) (-1)); [lia |]. cbn [negb].
  rewrite sliceFrom_after_byte, slice_before. reflexivity.
Qed.

(** C3: for every input [condition=REST], [waiterFor] builds a
    named-condition waiter by cutting [REST] at its first [=] only.  When
    [REST] has no [=] (it is the [name] below) the value is ["true"]; when
    [REST] is [name=value], where [name] is the part before the first [=]
    and so has none, the value is everything after it, further [=]
    included: [condition=Ready=a=b] gives the name [Ready] and the value
    [a=b].  (By [hasByte_cut] every [REST] is of one of the two forms.) *)
Theorem waiterFor_named_condition (name value : string) (errOut : Writer) :
  hasByte "=" name = false ->
  returned (waiterFor ("condition=" ++ name) errOut)
  = Ok (NewConditionalWaiter name "true" errOut)
  /\ returned (waiterFor ("condition=" ++ name ++ "=" ++ value) errOut)
     = Ok (NewConditionalWaiter name value errOut)
  /\ returned (waiterFor "condition=Ready=a=b" errOut)
     = Ok (NewConditionalWaiter "Ready" "a=b" errOut).
Proof.
  intros H. unfold returned. split; [| split].
  - now rewrite waiterFor_condition_bare.
  - now rewrite waiterFor_condition_valued.
  - change "condition=Ready=a=b" with ("condition=" ++ "Ready" ++ "=" ++ "a=b").
    now rewrite waiterFor_condition_valued.
Qed.

(** Every input with the prefix [condition=] gives a named-condition
    waiter, from any log and without a call. *)
Lemma waiterFor_condition_kind (condition : string) (errOut : Writer) :
  strings.HasPrefix condition "condition=" = true ->
  exists name value, forall log,
      waiterFor condition errOut log
      = (Ok (NewConditionalWaiter name value errOut), log).
Proof.
  intros H. apply HasPrefix_inv in H. revert H.
  generalize (drop (String.length "condition=") condition) as rest.
  intros rest ->.
  destruct (hasByte "=" rest) eqn:E.
  - destruct (hasByte_cut "=" rest E) as (name & value & -> & Hn).
    exists name, value. intros log.
    change (name ++ String "=" value) with (name ++ "=" ++ value).
    now apply waiterFor_condition_valued.
  - exists rest, "true". intros log. now apply waiterFor_condition_bare.
Qed.

(** C10: for every input that starts with [condition=], [waiterFor]
    returns a named-condition waiter and a nil error, makes no call, and
    neither fails nor panics, whatever follows the prefix; the bare input
    [condition=] gives the empty name and the value ["true"]. *)
Theorem waiterFor_condition_succeeds (condition : string) (errOut : Writer) :
  strings.HasPrefix condition "condition=" = true ->
  (exists name value,
      returned (waiterFor condition errOut)
      = Ok (NewConditionalWaiter name value errOut)
      /\ calls (waiterFor condition errOut) = [])
  /\ returned (waiterFor "condition=" errOut)
     = Ok (NewConditionalWaiter "" "true" errOut).
Proof.
  intros H. split.
  - destruct (waiterFor_condition_kind condition errOut H)
      as (name & value & W).
    exists name, value. unfold returned, calls. now rewrite W.
  - unfold returned.
    change "condition=" with ("condition=" ++ "") at 1.
    now rewrite waiterFor_condition_bare.
Qed.

(** *** The two helpers of the jsonpath branch *)

Lemma processJSONPathInput_relaxed (p cond r : string) log :
  RelaxedJSONPathExpression p = Ok r -> cond <> "" ->
  processJSONPathInput p cond log
  = (Ok (r, strings.Trim cond quotes),
     (log ++ [CallRelaxedJSONPathExpression p])%list).
Proof.
  intros R C. unfold_parser. unfold bind, call. rewrite R.
  now destruct (String.eqb_spec cond "").
Qed.

Lemma processJSONPathInput_empty_condition (p r : string) log :
  RelaxedJSONPathExpression p = Ok r ->
  processJSONPathInput p "" log
  = (Err ErrEmptyCondition, (log ++ [CallRelaxedJSONPathExpression p])%list).
Proof. intros R. unfold_parser. unfold bind, call. now rewrite R. Qed.

(** An error of the relaxer is returned whatever the expected value. *)
Lemma processJSONPathInput_relax_error (p cond : string) (e : error) log :
  RelaxedJSONPathExpression p = Err e ->
  processJSONPathInput p cond log
  = (Err e, (log ++ [CallRelaxedJSONPathExpression p])%list).
Proof. intros R. unfold_parser. unfold bind, call. now rewrite R. Qed.

Lemma newJSONPathParser_empty log :
  newJSONPathParser "" log
  = (Err ErrEmptyExpression, (log ++ [CallNew "wait"])%list).
Proof. reflexivity. Qed.

Lemma newJSONPathParser_parsed (e : string) (j : JSONPath) log :
  e <> "" -> Parse (jsonpath_New "wait") e = Ok j ->
  newJSONPathParser e log
  = (Ok j, (log ++ [CallNew "wait"; CallParse e])%list).
Proof.
  intros E P. unfold_parser. unfold bind, call. cbn [fst snd].
  destruct (String.eqb_spec e ""); [contradiction |].
  rewrite P. cbn [ret]. now rewrite <- app_assoc.
Qed.

(** *** The jsonpath branch *)

Lemma fields_jsonpath (rest : string) :
  fields "=" ("jsonpath=" ++ rest) = "jsonpath" :: fields "=" rest.
Proof.
  change ("jsonpath=" ++ rest) with ("jsonpath" ++ String "=" rest).
  now apply fields_first.
Qed.

Lemma Split_jsonpath (p v : string) :
  hasByte "=" p = false -> hasByte "=" v = false ->
  strings.Split ("jsonpath=" ++ p ++ "=" ++ v) "=" = ["jsonpath"; p; v].
Proof.
  intros Hp Hv. rewrite Split_fields, fields_jsonpath.
  change (p ++ "=" ++ v) with (p ++ String "=" v).
  now rewrite (fields_first "=" p v Hp), (fields_absent "=" v Hv).
Qed.

Lemma waiterFor_jsonpath_arity (rest : string) (errOut : Writer) log :
  Z.of_nat (List.length (strings.Split ("jsonpath=" ++ rest) "=")) <> 3 ->
  waiterFor ("jsonpath=" ++ rest) errOut log = (Err ErrMalformedJSONPath, log).
Proof.
  intros H. unfold_waiterFor.
  rewrite ToLower_jsonpath, HasPrefix_jsonpath_condition, HasPrefix_append.
  cbv zeta. apply Z.eqb_neq in H. now rewrite H.
Qed.

Lemma waiterFor_jsonpath_fields (p v : string) (errOut : Writer) log :
  hasByte "=" p = false -> hasByte "=" v = false ->
  waiterFor ("jsonpath=" ++ p ++ "=" ++ v) errOut log
  = afterArityCheck p v errOut log.
Proof.
  intros Hp Hv. unfold_waiterFor.
  rewrite ToLower_jsonpath, HasPrefix_jsonpath_condition, HasPrefix_append.
  cbv zeta. rewrite (Split_jsonpath p v Hp Hv). reflexivity.
Qed.

(** Three fields: exactly one [=] after the prefix. *)
Lemma three_fields_one_equals (rest : string) :
  Z.of_nat (List.length (strings.Split ("jsonpath=" ++ rest) "=")) = 3
  <-> strings.Count rest "=" = 1.
Proof.
  rewrite length_Split, Count_append.
  change (strings.Count "jsonpath=" "=") with 1. lia.
Qed.

Lemma bind_Ok {A B} (m : M A) (k : A -> M B) log (b : B) log2 :
  bind m k log = (Ok b, log2) ->
  exists a log1, m log = (Ok a, log1) /\ k a log1 = (Ok b, log2).
Proof.
  unfold bind. destruct (m log) as [[a | e |] log1]; intros H;
    try discriminate. now exists a, log1.
Qed.

(** The kind of the waiter agrees with the branch taken. *)
Lemma waiterFor_jsonpath_kind (rest : string) (errOut : Writer) log w log' :
  waiterFor ("jsonpath=" ++ rest) errOut log = (Ok w, log') ->
  exists cond j, w = NewJSONPathWaiter cond j errOut.
Proof.
  unfold_waiterFor.
  rewrite ToLower_jsonpath, HasPrefix_jsonpath_condition, HasPrefix_append.
  cbv zeta. destruct (negb _); [discriminate |]. intros H.
  apply bind_Ok in H. destruct H as (s1 & l1 & _ & H).
  apply bind_Ok in H. destruct H as (s2 & l2 & _ & H).
  apply bind_Ok in H. destruct H as ([e c] & l3 & _ & H).
  apply bind_Ok in H. destruct H as (j & l4 & _ & H).
  exists c, j. unfold ret in H. congruence.
Qed.

(** C2: for every input that starts with [jsonpath=], [waiterFor] fails
    with the arity error unless splitting the whole input at [=] yields
    exactly three fields, so it succeeds only with three fields; three
    fields means exactly one [=] after the prefix.
    [jsonpath={.status.phase}=Running] passes the arity check (the fields
    [{.status.phase}] and [Running] go on to the relaxer and the parser),
    [jsonpath={.status.phase}] and [jsonpath={.status.phase}=a=b] fail
    with the arity error. *)
Theorem waiterFor_jsonpath_three_fields (condition : string) (errOut : Writer) :
  strings.HasPrefix condition "jsonpath=" = true ->
  (Z.of_nat (List.length (strings.Split condition "=")) <> 3 ->
   returned (waiterFor condition errOut) = Err ErrMalformedJSONPath
   /\ calls (waiterFor condition errOut) = [])
  /\ (forall w, returned (waiterFor condition errOut) = Ok w ->
                Z.of_nat (List.length (strings.Split condition "=")) = 3)
  /\ (Z.of_nat (List.length (strings.Split condition "=")) = 3
      <-> strings.Count (drop (String.length "jsonpath=") condition) "=" = 1)
  /\ (strings.Split "jsonpath={.status.phase}=Running" "="
      = ["jsonpath"; "{.status.phase}"; "Running"]
      /\ forall log,
          waiterFor "jsonpath={.status.phase}=Running" errOut log
          = afterArityCheck "{.status.phase}" "Running" errOut log)
  /\ returned (waiterFor "jsonpath={.status.phase}" errOut)
     = Err ErrMalformedJSONPath
  /\ returned (waiterFor "jsonpath={.status.phase}=a=b" errOut)
     = Err ErrMalformedJSONPath.
Proof.
  intros H. apply HasPrefix_inv in H. revert H.
  generalize (drop (String.length "jsonpath=") condition) as rest.
  intros rest ->.
  assert (A : Z.of_nat (List.length (strings.Split ("jsonpath=" ++ rest) "="))
              <> 3 ->
              returned (waiterFor ("jsonpath=" ++ rest) errOut)
              = Err ErrMalformedJSONPath
              /\ calls (waiterFor ("jsonpath=" ++ rest) errOut) = []).
  { intros N. unfold returned, calls.
    now rewrite (waiterFor_jsonpath_arity rest errOut [] N). }
  split; [exact A |]. split; [| split; [| split; [| split]]].
  - intros w W.
    destruct (Z.eq_dec
                (Z.of_nat (List.length (strings.Split ("jsonpath=" ++ rest) "=")))
                3) as [E | N]; [exact E |].
    destruct (A N) as [F _]. congruence.
  - apply three_fields_one_equals.
  - split; [reflexivity |]. intros log.
    change "jsonpath={.status.phase}=Running"
      with ("jsonpath=" ++ "{.status.phase}" ++ "=" ++ "Running").
    now apply waiterFor_jsonpath_fields.
  - reflexivity.
  - reflexivity.
Qed.

(** *** Deletion and unrecognized conditions *)

(** C4: [waiterFor] returns the deletion waiter exactly when the input,
    lower-cased, equals [delete]: [delete], [DELETE] and [Delete] give the
    deletion waiter, while [deleted] does not match and, having no known
    prefix, fails with the unrecognized-condition error. *)
Theorem waiterFor_deletion (condition : string) (errOut : Writer) :
  (returned (waiterFor condition errOut) = Ok NewDeletionWaiter
   <-> strings.ToLower To_LowerCase condition = "delete")
  /\ returned (waiterFor "delete" errOut) = Ok NewDeletionWaiter
  /\ returned (waiterFor "DELETE" errOut) = Ok NewDeletionWaiter
  /\ returned (waiterFor "Delete" errOut) = Ok NewDeletionWaiter
  /\ returned (waiterFor "deleted" errOut)
     = Err (ErrUnrecognizedCondition "deleted").
Proof.
  split; [| repeat split].
  split.
  - intros R.
    destruct (String.eqb_spec (strings.ToLower To_LowerCase condition) "delete")
      as [E | N]; [exact E | exfalso].
    destruct (strings.HasPrefix condition "condition=") eqn:C.
    + destruct (waiterFor_condition_kind condition errOut C)
        as (name & value & W).
      unfold returned in R. rewrite W in R. discriminate R.
    + destruct (strings.HasPrefix condition "jsonpath=") eqn:J.
      * apply HasPrefix_inv in J. rewrite J in R. unfold returned in R.
        destruct (waiterFor _ errOut []) as [r l] eqn:W. cbn [fst] in R.
        subst r. apply waiterFor_jsonpath_kind in W.
        destruct W as (c & j & W). discriminate W.
      * revert R. unfold returned. unfold_waiterFor.
        apply String.eqb_neq in N. rewrite N, C, J. discriminate.
  - intros E. unfold returned. unfold_waiterFor. now rewrite E.
Qed.

(** C5, amended: for every input that does not lower-case to [delete] and
    starts with neither [condition=] nor [jsonpath=], [waiterFor] fails
    without any call, and the message of the error is
    [unrecognized condition: ] followed by the input as [%q] quotes it
    (between double quotes, with Go's escapes).  When every byte of the
    input is printable ASCII other than the double quote and the
    backslash, as in [foo=bar], the input stands between the quotes as it
    is, and the message contains it verbatim. *)
Theorem waiterFor_unrecognized (condition : string) (errOut : Writer) :
  strings.ToLower To_LowerCase condition <> "delete" ->
  strings.HasPrefix condition "condition=" = false ->
  strings.HasPrefix condition "jsonpath=" = false ->
  exists e,
    returned (waiterFor condition errOut) = Err e
    /\ calls (waiterFor condition errOut) = []
    /\ Error e
       = "unrecognized condition: " ++ strconv.Quote isPrintTable condition
    /\ (strings.allBytes plainByte condition = true ->
        Error e
        = "unrecognized condition: "
          ++ String dquote (condition ++ String dquote "")
        /\ strings.Contains (Error e) condition = true).
Proof.
  intros N C J. exists (ErrUnrecognizedCondition condition).
  unfold returned, calls. unfold_waiterFor.
  apply String.eqb_neq in N. rewrite N, C, J. cbn [fail fst snd].
  split; [reflexivity |]. split; [reflexivity |].
  unfold_errors.
  rewrite Sprintf_unrecognized. split; [reflexivity |].
  intros P. rewrite (Quote_plain isPrintTable condition P).
  split; [reflexivity |].
  change (String dquote (condition ++ String dquote ""))
    with (String dquote "" ++ condition ++ String dquote "").
  rewrite <- append_assoc. apply Contains_infix.
Qed.

(** *** Empty expressions, empty conditions and quotes *)

Lemma processJSONPathInput_calls (p v : string) :
  calls (processJSONPathInput p v) = [CallRelaxedJSONPathExpression p].
Proof.
  unfold calls. unfold_parser. unfold bind, call.
  destruct (RelaxedJSONPathExpression p); try reflexivity.
  now destruct (String.eqb v "").
Qed.

(** C6, amended: when the path expression is the empty string, which
    the relaxer returns as it is, and the expected value is not empty, as
    in the input [jsonpath==x], [waiterFor] fails with the error
    [jsonpath expression cannot be empty] of [newJSONPathParser]; it has
    then called the relaxer and [jsonpath.New], and never [Parse], so the
    error is not one of the parser, whatever the parser would answer.
    When the expected value is empty too, as in [jsonpath==], the
    empty-condition error comes first. *)
Theorem waiterFor_empty_expression (v : string) (errOut : Writer) :
  hasByte "=" v = false -> v <> "" ->
  RelaxedJSONPathExpression "" = Ok "" ->
  (returned (newJSONPathParser "") = Err ErrEmptyExpression
   /\ calls (newJSONPathParser "") = [CallNew "wait"])
  /\ returned (waiterFor ("jsonpath==" ++ v) errOut) = Err ErrEmptyExpression
  /\ calls (waiterFor ("jsonpath==" ++ v) errOut)
     = [CallRelaxedJSONPathExpression ""; CallNew "wait"]
  /\ (forall text,
         ~ In (CallParse text) (calls (waiterFor ("jsonpath==" ++ v) errOut)))
  /\ returned (waiterFor "jsonpath==" errOut) = Err ErrEmptyCondition.
Proof.
  intros Hv V R. split; [split; reflexivity |].
  assert (W : waiterFor ("jsonpath==" ++ v) errOut []
              = (Err ErrEmptyExpression,
                 [CallRelaxedJSONPathExpression ""; CallNew "wait"])).
  { change ("jsonpath==" ++ v) with ("jsonpath=" ++ "" ++ "=" ++ v).
    rewrite (waiterFor_jsonpath_fields "" v errOut [] eq_refl Hv).
    unfold_afterArityCheck. unfold bind at 1.
    rewrite (processJSONPathInput_relaxed "" v "" [] R V). reflexivity. }
  unfold returned, calls. rewrite W. cbn [fst snd].
  split; [reflexivity |]. split; [reflexivity |]. split.
  - intros text [F | [F | []]]; discriminate F.
  - change "jsonpath==" with ("jsonpath=" ++ "" ++ "=" ++ "").
    rewrite (waiterFor_jsonpath_fields "" "" errOut [] eq_refl eq_refl).
    unfold_afterArityCheck. unfold bind at 1.
    now rewrite (processJSONPathInput_empty_condition "" "" [] R).
Qed.

(** C9, amended: a quoted empty expected value is not caught by the test
    for the empty condition, which comes before the trimming: for every
    path expression [p] the relaxer accepts, [processJSONPathInput] given
    [p] and two single quotes succeeds with the empty string as expected
    value.  The input [jsonpath=p=''] then succeeds in [waiterFor], with a
    jsonpath waiter expecting the empty string, when moreover [p] has no
    [=], its relaxed form is not empty and the parser accepts it. *)
Theorem processJSONPathInput_quoted_empty (p r : string) (errOut : Writer) :
  RelaxedJSONPathExpression p = Ok r ->
  returned (processJSONPathInput p "''") = Ok (r, "")
  /\ forall j,
      hasByte "=" p = false -> r <> "" ->
      Parse (jsonpath_New "wait") r = Ok j ->
      returned (waiterFor ("jsonpath=" ++ p ++ "=" ++ "''") errOut)
      = Ok (NewJSONPathWaiter "" j errOut).
Proof.
  intros R.
  assert (Q : forall log,
             processJSONPathInput p "''" log
             = (Ok (r, ""), (log ++ [CallRelaxedJSONPathExpression p])%list)).
  { intros log. rewrite (processJSONPathInput_relaxed p "''" r log R);
      [reflexivity | discriminate]. }
  split.
  - unfold returned. now rewrite Q.
  - intros j Hp N P. unfold returned.
    rewrite (waiterFor_jsonpath_fields p "''" errOut [] Hp eq_refl).
    unfold_afterArityCheck. unfold bind at 1. rewrite Q.
    unfold bind. now rewrite (newJSONPathParser_parsed r j _ N P).
Qed.

(** C1, amended: [processJSONPathInput] removes from the expected value
    every leading and every trailing single or double quote, whatever
    their number, and nothing inside: the expected value [pre ++ core ++
    post], where [pre] and [post] are made of quotes and [core] neither
    starts nor ends with one, yields [core].  So ['Running'] yields
    [Running], and [''Running''] yields [Running] too. *)
Theorem processJSONPathInput_trims_quotes (p r pre core post : string) :
  RelaxedJSONPathExpression p = Ok r ->
  allQuotes pre = true -> allQuotes post = true ->
  startsQuoted core = false -> endsQuoted core = false ->
  pre ++ core ++ post <> "" ->
  returned (processJSONPathInput p (pre ++ core ++ post)) = Ok (r, core)
  /\ returned (processJSONPathInput p "'Running'") = Ok (r, "Running")
  /\ returned (processJSONPathInput p "''Running''") = Ok (r, "Running").
Proof.
  intros R Hpre Hpost Hs He N. unfold returned. split; [| split].
  - rewrite (processJSONPathInput_relaxed _ _ r [] R N).
    now rewrite Trim_layers.
  - rewrite (processJSONPathInput_relaxed _ _ r [] R); [reflexivity |].
    discriminate.
  - rewrite (processJSONPathInput_relaxed _ _ r [] R); [reflexivity |].
    discriminate.
Qed.

(** C7, amended: when the relaxer accepts the path expression,
    [processJSONPathInput] fails with the empty-condition error exactly
    when the expected value is the empty string; the message of that
    error differs from the message of the empty-expression error, so the
    two errors differ. *)
Theorem processJSONPathInput_empty_condition_iff (p cond r : string) :
  RelaxedJSONPathExpression p = Ok r ->
  (returned (processJSONPathInput p cond) = Err ErrEmptyCondition
   <-> cond = "")
  /\ Error ErrEmptyCondition <> Error ErrEmptyExpression
  /\ ErrEmptyCondition <> ErrEmptyExpression.
Proof.
  intros R. split; [| split; discriminate]. unfold returned. split.
  - intros F. destruct (String.eqb_spec cond "") as [E | N]; [exact E |].
    rewrite (processJSONPathInput_relaxed p cond r [] R N) in F.
    discriminate F.
  - intros ->. now rewrite (processJSONPathInput_empty_condition p r [] R).
Qed.

(** ** Further properties of the parser *)

(** *** What trimming leaves *)

Lemma allQuotes_append (a b : string) :
  allQuotes (a ++ b) = allQuotes a && allQuotes b.
Proof.
  unfold allQuotes. induction a as [|x a IH]; [reflexivity |].
  cbn [append strings.allBytes]. now rewrite IH, andb_assoc.
Qed.

Lemma trimRightASCII_split (s : string) :
  exists post,
    s = strings.trimRightASCII s quotes ++ post
    /\ allQuotes post = true
    /\ endsQuoted (strings.trimRightASCII s quotes) = false.
Proof.
  induction s as [|b s (post & E & Q & N)].
  - now exists "".
  - cbn [strings.trimRightASCII]. rewrite contains_quotes.
    destruct (strings.trimRightASCII s quotes) as [|b' t] eqn:T.
    + cbn [append] in E. subst post.
      destruct (isQuote b) eqn:B.
      * exists (String b s). split; [reflexivity |]. split; [| reflexivity].
        unfold allQuotes in *. cbn [strings.allBytes]. now rewrite B, Q.
      * exists s. split; [reflexivity |]. split; [assumption |].
        exact B.
    + exists post. split; [| split; [assumption | exact N]].
      cbn [append] in *. now rewrite <- E.
Qed.

Lemma trimLeftASCII_split (s : string) :
  exists pre,
    s = pre ++ strings.trimLeftASCII s quotes
    /\ allQuotes pre = true
    /\ startsQuoted (strings.trimLeftASCII s quotes) = false.
Proof.
  induction s as [|b s (pre & E & Q & N)].
  - now exists "".
  - cbn [strings.trimLeftASCII]. rewrite contains_quotes.
    destruct (isQuote b) eqn:B.
    + exists (String b pre). split; [| split; [| exact N]].
      * cbn [append]. now rewrite <- E.
      * unfold allQuotes in *. cbn [strings.allBytes]. now rewrite B, Q.
    + exists "". split; [reflexivity |]. split; [reflexivity | exact B].
Qed.

Lemma endsQuoted_trimLeftASCII (x : string) :
  endsQuoted x = false ->
  endsQuoted (strings.trimLeftASCII x quotes) = false.
Proof.
  induction x as [|b x IH]; [reflexivity |]. intros H.
  cbn [strings.trimLeftASCII]. rewrite contains_quotes.
  destruct (isQuote b) eqn:B; [| exact H].
  apply IH. destruct x as [|b' x]; [| exact H].
  cbn [endsQuoted] in H. congruence.
Qed.

(** [Trim] with the two quotes cuts a string into quotes, a part that
    neither starts nor ends with a quote, and quotes; the part is what it
    returns. *)
Lemma Trim_split (s : string) :
  exists pre post,
    s = pre ++ strings.Trim s quotes ++ post
    /\ allQuotes pre = true /\ allQuotes post = true
    /\ startsQuoted (strings.Trim s quotes) = false
    /\ endsQuoted (strings.Trim s quotes) = false.
Proof.
  unfold strings.Trim.
  destruct (String.eqb_spec s "") as [-> | _].
  - now exists "", "".
  - change (String.eqb quotes "") with false. cbn [orb].
    destruct (trimRightASCII_split s) as (post & E & Qpost & N).
    destruct (trimLeftASCII_split (strings.trimRightASCII s quotes))
      as (pre & E' & Qpre & N').
    exists pre, post. split; [| split; [assumption |]].
    + rewrite <- append_assoc, <- E'. exact E.
    + split; [assumption |]. split; [assumption |].
      now apply endsQuoted_trimLeftASCII.
Qed.

Lemma hasByte_Trim (c : ascii) (s : string) :
  hasByte c s = false -> hasByte c (strings.Trim s quotes) = false.
Proof.
  destruct (Trim_split s) as (pre & post & E & _). intros H.
  rewrite E, !hasByte_append, !orb_false_iff in H. tauto.
Qed.

(** *** Fields *)

Lemma fields_cons_inv (c : ascii) (s f : string) (fs : list string) :
  fields c s = f :: fs ->
  hasByte c f = false
  /\ ((fs = [] /\ s = f)
      \/ exists rest, s = f ++ String c rest /\ fields c rest = fs).
Proof.
  destruct (hasByte c s) eqn:H.
  - destruct (hasByte_cut c s H) as (a & b & -> & Ha).
    rewrite (fields_first c a b Ha). intros [= <- <-].
    split; [assumption |]. right. now exists b.
  - rewrite (fields_absent c s H). intros [= <- <-].
    split; [assumption |]. now left.
Qed.

Lemma three_fields_inv (rest : string) :
  Z.of_nat (List.length (strings.Split ("jsonpath=" ++ rest) "=")) = 3 ->
  exists p v,
    rest = p ++ "=" ++ v /\ hasByte "=" p = false /\ hasByte "=" v = false.
Proof.
  rewrite Split_fields, fields_jsonpath.
  destruct (fields "=" rest) as [|p [|v [|x l]]] eqn:F;
    cbn [List.length]; try lia. intros _.
  apply fields_cons_inv in F. destruct F as [Hp [[F _] | (r1 & -> & F)]];
    [discriminate F |].
  apply fields_cons_inv in F. destruct F as [Hv [[_ ->] | (r2 & _ & F)]].
  - now exists p, v.
  - now apply fields_nonempty in F.
Qed.

(** *** The parser by cases *)

Lemma afterArityCheck_run (p v : string) (errOut : Writer) :
  afterArityCheck p v errOut []
  = match RelaxedJSONPathExpression p with
    | Ok r =>
      if String.eqb v "" then
        (Err ErrEmptyCondition, [CallRelaxedJSONPathExpression p])
      else if String.eqb r "" then
        (Err ErrEmptyExpression,
         [CallRelaxedJSONPathExpression p; CallNew "wait"])
      else
        (match Parse (jsonpath_New "wait") r with
         | Ok j => Ok (NewJSONPathWaiter (strings.Trim v quotes) j errOut)
         | Err e => Err e
         | Panic => Panic
         end,
         [CallRelaxedJSONPathExpression p; CallNew "wait"; CallParse r])
    | Err e => (Err e, [CallRelaxedJSONPathExpression p])
    | Panic => (Panic, [CallRelaxedJSONPathExpression p])
    end.
Proof.
  unfold_parser. unfold bind, call, ret, fail. cbn [app fst snd].
  destruct (RelaxedJSONPathExpression p) as [r | e |]; try reflexivity.
  destruct (String.eqb v ""); [reflexivity |].
  destruct (String.eqb r ""); [reflexivity |]. cbn [app].
  now destruct (Parse (jsonpath_New "wait") r).
Qed.

(** Every input falls in one of six cases. *)
Lemma waiterFor_cases (condition : string) (errOut : Writer) :
  (strings.ToLower To_LowerCase condition = "delete"
   /\ waiterFor condition errOut [] = (Ok NewDeletionWaiter, []))
  \/ (exists name,
         hasByte "=" name = false /\ condition = "condition=" ++ name
         /\ waiterFor condition errOut []
            = (Ok (NewConditionalWaiter name "true" errOut), []))
  \/ (exists name value,
         hasByte "=" name = false
         /\ condition = "condition=" ++ name ++ "=" ++ value
         /\ waiterFor condition errOut []
            = (Ok (NewConditionalWaiter name value errOut), []))
  \/ (strings.HasPrefix condition "jsonpath=" = true
      /\ Z.of_nat (List.length (strings.Split condition "=")) <> 3
      /\ waiterFor condition errOut [] = (Err ErrMalformedJSONPath, []))
  \/ (exists p v,
         hasByte "=" p = false /\ hasByte "=" v = false
         /\ condition = "jsonpath=" ++ p ++ "=" ++ v
         /\ waiterFor condition errOut [] = afterArityCheck p v errOut [])
  \/ (strings.ToLower To_LowerCase condition <> "delete"
      /\ strings.HasPrefix condition "condition=" = false
      /\ strings.HasPrefix condition "jsonpath=" = false
      /\ waiterFor condition errOut []
         = (Err (ErrUnrecognizedCondition condition), [])).
Proof.
  destruct (String.eqb_spec (strings.ToLower To_LowerCase condition) "delete")
    as [D | D].
  { left. split; [exact D |]. unfold_waiterFor. now rewrite D. }
  right. destruct (strings.HasPrefix condition "condition=") eqn:C.
  { apply HasPrefix_inv in C. revert C.
    generalize (drop (String.length "condition=") condition) as rest.
    intros rest C. destruct (hasByte "=" rest) eqn:E.
    - right. left. destruct (hasByte_cut "=" rest E) as (n & v & -> & Hn).
      exists n, v. split; [assumption |]. split; [exact C |].
      rewrite C. change (n ++ String "=" v) with (n ++ "=" ++ v).
      now apply waiterFor_condition_valued.
    - left. exists rest. split; [assumption |]. split; [exact C |].
      rewrite C. now apply waiterFor_condition_bare. }
  right. right. destruct (strings.HasPrefix condition "jsonpath=") eqn:J.
  { pose proof (HasPrefix_inv _ _ J) as E. revert E.
    generalize (drop (String.length "jsonpath=") condition) as rest.
    intros rest E.
    destruct (Z.eq_dec (Z.of_nat (List.length (strings.Split condition "=")))
                       3) as [T | T].
    - right. left. rewrite E in T.
      destruct (three_fields_inv rest T) as (p & v & -> & Hp & Hv).
      exists p, v. split; [assumption |]. split; [assumption |].
      split; [exact E |]. rewrite E. now apply waiterFor_jsonpath_fields.
    - left. split; [reflexivity |]. split; [exact T |]. revert T.
      rewrite E. apply waiterFor_jsonpath_arity. }
  right. right. split; [exact D |]. split; [reflexivity |].
  split; [reflexivity |]. unfold_waiterFor.
  apply String.eqb_neq in D. now rewrite D, C, J.
Qed.

(** *** The inputs accepted and the waiters built *)

(** X1: [waiterFor] succeeds on exactly four forms of input and the
    waiter is read off the input: an input that lower-cases to [delete]
    gives the deletion waiter; [condition=name], with no [=] in [name],
    gives the named condition [name] with the value ["true"];
    [condition=name=value] gives [name] and [value]; [jsonpath=p=v], with
    no [=] in [p] and [v], [v] not empty, [p] relaxed to a non-empty [r]
    that the parser accepts, gives the jsonpath waiter of the parsed [r]
    and of [v] without its surrounding quotes.  Every other input
    fails. *)
Theorem waiterFor_success_iff
        (condition : string) (errOut : Writer) (w : Waiter JSONPath Writer) :
  returned (waiterFor condition errOut) = Ok w
  <-> (strings.ToLower To_LowerCase condition = "delete"
       /\ w = NewDeletionWaiter)
      \/ (exists name,
             hasByte "=" name = false /\ condition = "condition=" ++ name
             /\ w = NewConditionalWaiter name "true" errOut)
      \/ (exists name value,
             hasByte "=" name = false
             /\ condition = "condition=" ++ name ++ "=" ++ value
             /\ w = NewConditionalWaiter name value errOut)
      \/ (exists p v r j,
             hasByte "=" p = false /\ hasByte "=" v = false
             /\ condition = "jsonpath=" ++ p ++ "=" ++ v
             /\ v <> ""
             /\ RelaxedJSONPathExpression p = Ok r /\ r <> ""
             /\ Parse (jsonpath_New "wait") r = Ok j
             /\ w = NewJSONPathWaiter (strings.Trim v quotes) j errOut).
Proof.
  unfold returned. split.
  - intros R.
    destruct (waiterFor_cases condition errOut)
      as [[D W] | [(n & Hn & E & W) | [(n & v & Hn & E & W)
         | [(_ & _ & W) | [(p & v & Hp & Hv & E & W) | (_ & _ & _ & W)]]]]];
      rewrite W in R; cbn [fst] in R.
    + left. split; [exact D | congruence].
    + right. left. exists n. repeat split; congruence.
    + right. right. left. exists n, v. repeat split; congruence.
    + discriminate R.
    + right. right. right. rewrite afterArityCheck_run in R.
      destruct (RelaxedJSONPathExpression p) as [r | e |] eqn:Rp;
        try discriminate R.
      destruct (String.eqb_spec v "") as [| Nv]; [discriminate R |].
      destruct (String.eqb_spec r "") as [| Nr]; [discriminate R |].
      cbn [fst] in R.
      destruct (Parse (jsonpath_New "wait") r) as [j | e |] eqn:Pr;
        try discriminate R.
      exists p, v, r, j. repeat split; try assumption. congruence.
    + discriminate R.
  - intros [[D ->] | [(n & Hn & -> & ->) | [(n & v & Hn & -> & ->)
             | (p & v & r & j & Hp & Hv & -> & Nv & Rp & Nr & Pr & ->)]]].
    + unfold_waiterFor. now rewrite D.
    + now rewrite waiterFor_condition_bare.
    + now rewrite waiterFor_condition_valued.
    + rewrite (waiterFor_jsonpath_fields p v errOut [] Hp Hv).
      rewrite afterArityCheck_run, Rp.
      destruct (String.eqb_spec v ""); [contradiction |].
      destruct (String.eqb_spec r ""); [contradiction |].
      now rewrite Pr.
Qed.

(** X2: on an input [jsonpath=p=v] that passes the arity check, the
    checks come in a fixed order and the first that fails decides the
    error: an error of the relaxer is returned as it is, before anything
    else is looked at; then an empty [v] gives the empty-condition error,
    also when the path is empty too; then an empty relaxed path gives the
    empty-expression error; then an error of the parser is returned as it
    is.  The calls made stop at the check that fails. *)
Theorem waiterFor_jsonpath_error_order (p v : string) (errOut : Writer) :
  hasByte "=" p = false -> hasByte "=" v = false ->
  (forall e,
      RelaxedJSONPathExpression p = Err e ->
      returned (waiterFor ("jsonpath=" ++ p ++ "=" ++ v) errOut) = Err e
      /\ calls (waiterFor ("jsonpath=" ++ p ++ "=" ++ v) errOut)
         = [CallRelaxedJSONPathExpression p])
  /\ (forall r,
         RelaxedJSONPathExpression p = Ok r -> v = "" ->
         returned (waiterFor ("jsonpath=" ++ p ++ "=" ++ v) errOut)
         = Err ErrEmptyCondition
         /\ calls (waiterFor ("jsonpath=" ++ p ++ "=" ++ v) errOut)
            = [CallRelaxedJSONPathExpression p])
  /\ (RelaxedJSONPathExpression p = Ok "" -> v <> "" ->
      returned (waiterFor ("jsonpath=" ++ p ++ "=" ++ v) errOut)
      = Err ErrEmptyExpression
      /\ calls (waiterFor ("jsonpath=" ++ p ++ "=" ++ v) errOut)
         = [CallRelaxedJSONPathExpression p; CallNew "wait"])
  /\ (forall r e,
         RelaxedJSONPathExpression p = Ok r -> v <> "" -> r <> "" ->
         Parse (jsonpath_New "wait") r = Err e ->
         returned (waiterFor ("jsonpath=" ++ p ++ "=" ++ v) errOut) = Err e
         /\ calls (waiterFor ("jsonpath=" ++ p ++ "=" ++ v) errOut)
            = [CallRelaxedJSONPathExpression p; CallNew "wait";
               CallParse r]).
Proof.
  intros Hp Hv. unfold returned, calls.
  rewrite (waiterFor_jsonpath_fields p v errOut [] Hp Hv), afterArityCheck_run.
  split; [| split; [| split]].
  - intros e ->. now split.
  - intros r -> ->. now split.
  - intros -> Nv. destruct (String.eqb_spec v ""); [contradiction |].
    now split.
  - intros r e -> Nv Nr ->.
    destruct (String.eqb_spec v ""); [contradiction |].
    destruct (String.eqb_spec r ""); [contradiction |]. now split.
Qed.

(** X3: the calls of [waiterFor].  It calls a collaborator exactly when
    the input starts with [jsonpath=] and has three fields.  The calls
    are then the relaxer on the second field, which has no [=]; after it,
    if the relaxer accepted and the third field is not empty,
    [jsonpath.New] with the name [wait]; and after that, if the relaxed
    path [r] is not empty, [Parse] on [r], once. *)
Theorem waiterFor_calls (condition : string) (errOut : Writer) :
  (calls (waiterFor condition errOut) <> []
   <-> strings.HasPrefix condition "jsonpath=" = true
       /\ Z.of_nat (List.length (strings.Split condition "=")) = 3)
  /\ (calls (waiterFor condition errOut) = []
      \/ exists f0 p v,
          strings.Split condition "=" = [f0; p; v] /\ hasByte "=" p = false
          /\ (calls (waiterFor condition errOut)
              = [CallRelaxedJSONPathExpression p]
              /\ (v = "" \/ forall r, RelaxedJSONPathExpression p <> Ok r)
              \/ calls (waiterFor condition errOut)
                 = [CallRelaxedJSONPathExpression p; CallNew "wait"]
                 /\ v <> "" /\ RelaxedJSONPathExpression p = Ok ""
              \/ exists r,
                  calls (waiterFor condition errOut)
                  = [CallRelaxedJSONPathExpression p; CallNew "wait";
                     CallParse r]
                  /\ v <> "" /\ r <> ""
                  /\ RelaxedJSONPathExpression p = Ok r)).
Proof.
  unfold calls.
  destruct (waiterFor_cases condition errOut)
    as [[D W] | [(n & Hn & E & W) | [(n & v & Hn & E & W)
       | [(J & T & W) | [(p & v & Hp & Hv & E & W) | (_ & _ & J & W)]]]]].
  - split; [| left; now rewrite W]. rewrite W. cbn [snd].
    split; [congruence |]. intros [J _]. apply HasPrefix_inv in J.
    rewrite J in D. pose proof (ToLower_jsonpath To_LowerCase
                                  (drop (String.length "jsonpath=") condition)) as N.
    apply String.eqb_neq in N. contradiction.
  - split; [| left; now rewrite W]. rewrite W. cbn [snd].
    split; [congruence |]. intros [J _]. apply HasPrefix_inv in J.
    rewrite J in E. discriminate E.
  - split; [| left; now rewrite W]. rewrite W. cbn [snd].
    split; [congruence |]. intros [J _]. apply HasPrefix_inv in J.
    rewrite J in E. discriminate E.
  - split; [| left; now rewrite W]. rewrite W. cbn [snd].
    split; [congruence |]. intros [_ T']. contradiction.
  - rewrite W, afterArityCheck_run. subst condition. split.
    + split.
      * intros _. split; [apply HasPrefix_append |].
        now rewrite (Split_jsonpath p v Hp Hv).
      * intros _.
        destruct (RelaxedJSONPathExpression p); try discriminate.
        destruct (String.eqb v ""); [discriminate |].
        destruct (String.eqb a ""); discriminate.
    + right. exists "jsonpath", p, v.
      split; [now apply Split_jsonpath |]. split; [assumption |].
      destruct (RelaxedJSONPathExpression p) as [r | e |].
      * destruct (String.eqb_spec v "") as [-> | Nv];
          [left; split; [reflexivity | now left] |].
        destruct (String.eqb_spec r "") as [-> | Nr].
        -- right. left. now repeat split.
        -- right. right. exists r. now repeat split.
      * left. split; [reflexivity |]. right. discriminate.
      * left. split; [reflexivity |]. right. discriminate.
  - split; [| left; now rewrite W]. rewrite W. cbn [snd].
    split; [congruence |]. intros [J' _]. congruence.
Qed.

(** X4: [waiterFor] does not panic: every slice and index it takes is in
    range, for every input, so it returns a waiter or an error unless a
    collaborator itself panics. *)
Theorem waiterFor_never_panics (condition : string) (errOut : Writer) :
  (forall s, RelaxedJSONPathExpression s <> Panic) ->
  (forall j s, Parse j s <> Panic) ->
  returned (waiterFor condition errOut) <> Panic.
Proof.
  intros NR NP. unfold returned.
  destruct (waiterFor_cases condition errOut)
    as [[_ W] | [(n & _ & _ & W) | [(n & v & _ & _ & W)
       | [(_ & _ & W) | [(p & v & _ & _ & _ & W) | (_ & _ & _ & W)]]]]];
    rewrite W; try discriminate.
  rewrite afterArityCheck_run. specialize (NR p).
  destruct (RelaxedJSONPathExpression p) as [r | e |];
    [| discriminate | contradiction].
  destruct (String.eqb v ""); [discriminate |].
  destruct (String.eqb r ""); [discriminate |]. cbn [fst].
  specialize (NP (jsonpath_New "wait") r).
  destruct (Parse (jsonpath_New "wait") r); [discriminate .. | contradiction].
Qed.

(** X5: what [processJSONPathInput] makes of the expected value.  For
    every accepted path and every non-empty expected value [v], the value
    returned is the part of [v] between its leading and its trailing
    quotes: [v] is quotes, then that part, then quotes, and the part
    neither starts nor ends with a quote.  It is empty exactly when [v]
    is made of quotes only. *)
Theorem processJSONPathInput_value (p v r : string) :
  RelaxedJSONPathExpression p = Ok r -> v <> "" ->
  exists t pre post,
    returned (processJSONPathInput p v) = Ok (r, t)
    /\ v = pre ++ t ++ post
    /\ allQuotes pre = true /\ allQuotes post = true
    /\ startsQuoted t = false /\ endsQuoted t = false
    /\ (t = "" <-> allQuotes v = true).
Proof.
  intros R N.
  destruct (Trim_split v) as (pre & post & E & Qpre & Qpost & S & F).
  exists (strings.Trim v quotes), pre, post. unfold returned.
  rewrite (processJSONPathInput_relaxed p v r [] R N).
  repeat (split; [assumption || reflexivity |]).
  split.
  - intros T. rewrite T in E. rewrite E, allQuotes_append.
    cbn [append]. now rewrite Qpre, Qpost.
  - intros Q. rewrite <- (append_empty_r v).
    change (v ++ "") with (v ++ "" ++ ""). now apply Trim_layers.
Qed.

(** X9: what a waiter returned by [waiterFor] holds: the sink is the one
    given; the name of a named condition has no [=]; the expected value of
    a jsonpath waiter has no [=] and neither starts nor ends with a
    quote. *)
Theorem waiterFor_waiter_fields
        (condition : string) (errOut : Writer) (w : Waiter JSONPath Writer) :
  returned (waiterFor condition errOut) = Ok w ->
  (forall name value e,
      w = NewConditionalWaiter name value e ->
      hasByte "=" name = false /\ e = errOut)
  /\ (forall cond j e,
         w = NewJSONPathWaiter cond j e ->
         hasByte "=" cond = false /\ startsQuoted cond = false
         /\ endsQuoted cond = false /\ e = errOut).
Proof.
  unfold returned. intros R.
  destruct (waiterFor_cases condition errOut)
    as [[_ W] | [(n & Hn & _ & W) | [(n & v & Hn & _ & W)
       | [(_ & _ & W) | [(p & v & _ & Hv & _ & W) | (_ & _ & _ & W)]]]]];
    rewrite W in R; cbn [fst] in R; try discriminate R.
  - injection R as <-. split; intros; discriminate.
  - injection R as <-. split; [| intros; discriminate].
    intros name value e [= <- _ <-]. now split.
  - injection R as <-. split; [| intros; discriminate].
    intros name value e [= <- _ <-]. now split.
  - rewrite afterArityCheck_run in R.
    destruct (RelaxedJSONPathExpression p) as [r | |]; try discriminate R.
    destruct (String.eqb v ""); [discriminate R |].
    destruct (String.eqb r ""); [discriminate R |]. cbn [fst] in R.
    destruct (Parse (jsonpath_New "wait") r) as [j | |]; try discriminate R.
    injection R as <-. split; [intros; discriminate |].
    intros cond j' e [= <- _ <-].
    destruct (Trim_split v) as (pre & post & _ & _ & _ & S & F).
    split; [now apply hasByte_Trim |]. now repeat split.
Qed.

(** *** Letter case *)

Lemma lowerByte_not_upper (b : ascii) :
  strings.isUpperByte b = false -> strings.lowerByte b = b.
Proof. intros U. unfold strings.lowerByte. now rewrite U. Qed.

(** Lower-casing turns a leading ASCII byte into its lower case, on both
    paths of [ToLower]. *)
Lemma ToLower_head_ascii (b : ascii) (s : string) :
  byteZ b < utf8.RuneSelf ->
  exists t,
    strings.ToLower To_LowerCase (String b s)
    = String (strings.lowerByte b) t.
Proof.
  intros H. destruct (strings.isUpperByte b) eqn:U.
  - unfold strings.ToLower. cbn [strings.allBytes strings.anyByte].
    rewrite (proj2 (Z.ltb_lt _ _) H), U. cbn [andb orb negb].
    destruct (strings.allBytes _ s).
    + cbn [strings.mapBytes]. now eexists.
    + unfold strings.Map, utf8.range. rewrite (rangeFrom_ascii b s H).
      cbn [strings.mapFirst].
      assert (L : unicode.ToLower To_LowerCase (byteZ b)
                  = byteZ b + (byteZ "a" - byteZ "A")).
      { unfold unicode.ToLower. change utf8.RuneSelf with 0x80 in H.
        change unicode.MaxASCII with 0x7F.
        destruct (Z.leb_spec (byteZ b) 0x7F); [| lia].
        unfold strings.isUpperByte in U. now rewrite U. }
      rewrite L. unfold strings.isUpperByte in U.
      apply andb_true_iff in U. destruct U as [U1 U2].
      apply Z.leb_le in U1, U2.
      change (byteZ "A") with 65 in *. change (byteZ "Z") with 90 in *.
      change (byteZ "a") with 97.
      replace (byteZ b + (97 - 65) =? byteZ b) with false
        by (symmetry; apply Z.eqb_neq; lia).
      replace (byteZ b =? utf8.RuneError) with false
        by (symmetry; apply Z.eqb_neq; change utf8.RuneError with 0xFFFD; lia).
      cbn [andb]. unfold strings.writeRune, utf8.EncodeRune.
      replace (byteZ b + (97 - 65) >=? 0) with true
        by (symmetry; apply Z.geb_le; lia).
      replace ((0 <=? byteZ b + (97 - 65))
               && (byteZ b + (97 - 65) <=? utf8.rune1Max)) with true
        by (symmetry; apply andb_true_iff; split; apply Z.leb_le;
            change utf8.rune1Max with 0x7F; lia).
      cbn [append]. unfold strings.lowerByte, strings.isUpperByte.
      change (byteZ "A") with 65. change (byteZ "Z") with 90.
      change (byteZ "a") with 97.
      rewrite (proj2 (Z.leb_le _ _) U1), (proj2 (Z.leb_le _ _) U2).
      cbn [andb]. now eexists.
  - rewrite (lowerByte_not_upper b U). now apply ToLower_head.
Qed.

(** An ASCII string is lower-cased byte by byte. *)
Lemma ToLower_ascii (s : string) :
  strings.allBytes (fun b => byteZ b <? utf8.RuneSelf) s = true ->
  strings.ToLower To_LowerCase s = strings.mapBytes strings.lowerByte s.
Proof.
  intros A. unfold strings.ToLower. rewrite A.
  destruct (strings.anyByte strings.isUpperByte s) eqn:U; [reflexivity |].
  cbn [negb]. clear A. induction s as [|b s IH]; [reflexivity |].
  cbn [strings.anyByte] in U. apply orb_false_iff in U. destruct U as [Ub Us].
  cbn [strings.mapBytes]. now rewrite (lowerByte_not_upper b Ub), <- IH.
Qed.

(** Decides a statement about one byte on each of the 256 bytes. *)
Ltac by_cases_on_byte b :=
  destruct b as [[] [] [] [] [] [] [] []]; vm_compute; split; intros H;
  solve [ discriminate H
        | destruct H as [H | H]; discriminate H
        | reflexivity | now left | now right ].

Lemma lowerByte_d (b : ascii) :
  strings.lowerByte b = "d"%char <-> b = "d"%char \/ b = "D"%char.
Proof. by_cases_on_byte b. Qed.

Lemma lowerByte_e (b : ascii) :
  strings.lowerByte b = "e"%char <-> b = "e"%char \/ b = "E"%char.
Proof. by_cases_on_byte b. Qed.

Lemma lowerByte_l (b : ascii) :
  strings.lowerByte b = "l"%char <-> b = "l"%char \/ b = "L"%char.
Proof. by_cases_on_byte b. Qed.

Lemma lowerByte_t (b : ascii) :
  strings.lowerByte b = "t"%char <-> b = "t"%char \/ b = "T"%char.
Proof. by_cases_on_byte b. Qed.

Lemma waiterFor_deletion_lower (condition : string) (errOut : Writer) :
  returned (waiterFor condition errOut) = Ok NewDeletionWaiter
  <-> strings.ToLower To_LowerCase condition = "delete".
Proof.
  unfold returned. split.
  - intros R.
    destruct (waiterFor_cases condition errOut)
      as [[D _] | [(n & _ & _ & W) | [(n & v & _ & _ & W)
         | [(_ & _ & W) | [(p & v & _ & _ & _ & W) | (_ & _ & _ & W)]]]]];
      [exact D | rewrite W in R; cbn [fst] in R; try discriminate R ..].
    rewrite afterArityCheck_run in R.
    destruct (RelaxedJSONPathExpression p) as [r | |]; try discriminate R.
    destruct (String.eqb v ""); [discriminate R |].
    destruct (String.eqb r ""); [discriminate R |]. cbn [fst] in R.
    destruct (Parse (jsonpath_New "wait") r); discriminate R.
  - intros D. unfold_waiterFor. now rewrite D.
Qed.

(** X6: the prefixes are case-sensitive and there is no other keyword:
    an input whose first byte is an ASCII byte other than [c], [j], [d]
    and [D] fails with the unrecognized-condition error, without a call,
    whatever follows; so does the empty input. *)
Theorem waiterFor_first_byte (b : ascii) (s : string) (errOut : Writer) :
  byteZ b < utf8.RuneSelf ->
  b <> "c"%char -> b <> "j"%char -> b <> "d"%char -> b <> "D"%char ->
  (returned (waiterFor (String b s) errOut)
   = Err (ErrUnrecognizedCondition (String b s))
   /\ calls (waiterFor (String b s) errOut) = [])
  /\ returned (waiterFor "" errOut) = Err (ErrUnrecognizedCondition "").
Proof.
  intros A Nc Nj Nd ND. split; [| reflexivity].
  unfold returned, calls. unfold_waiterFor.
  destruct (ToLower_head_ascii b s A) as (t & ->).
  replace (String.eqb (String (strings.lowerByte b) t) "delete") with false.
  - assert (C : strings.HasPrefix (String b s) "condition=" = false).
    { unfold strings.HasPrefix. apply andb_false_intro2.
      cbn [String.length take String.eqb].
      apply Ascii.eqb_neq in Nc. now rewrite Nc. }
    assert (J : strings.HasPrefix (String b s) "jsonpath=" = false).
    { unfold strings.HasPrefix. apply andb_false_intro2.
      cbn [String.length take String.eqb].
      apply Ascii.eqb_neq in Nj. now rewrite Nj. }
    rewrite C, J. now split.
  - symmetry. apply String.eqb_neq. intros [= L _].
    apply lowerByte_d in L. tauto.
Qed.

(** X7: on an ASCII input, the deletion waiter is returned exactly for
    the six letters of [delete], each in either case. *)
Theorem waiterFor_delete_spellings (condition : string) (errOut : Writer) :
  strings.allBytes (fun b => byteZ b <? utf8.RuneSelf) condition = true ->
  returned (waiterFor condition errOut) = Ok NewDeletionWaiter
  <-> exists b1 b2 b3 b4 b5 b6,
      condition
      = String b1 (String b2 (String b3 (String b4 (String b5 (String b6 "")))))
      /\ (b1 = "d" \/ b1 = "D")%char /\ (b2 = "e" \/ b2 = "E")%char
      /\ (b3 = "l" \/ b3 = "L")%char /\ (b4 = "e" \/ b4 = "E")%char
      /\ (b5 = "t" \/ b5 = "T")%char /\ (b6 = "e" \/ b6 = "E")%char.
Proof.
  intros A. rewrite waiterFor_deletion_lower, (ToLower_ascii condition A).
  split.
  - destruct condition as [|b1 [|b2 [|b3 [|b4 [|b5 [|b6 [|b7 s]]]]]]];
      cbn [strings.mapBytes]; intros E; try discriminate E.
    injection E as E1 E2 E3 E4 E5 E6.
    exists b1, b2, b3, b4, b5, b6. split; [reflexivity |].
    rewrite <- lowerByte_d, <- !lowerByte_e, <- lowerByte_l, <- lowerByte_t.
    tauto.
  - intros (b1 & b2 & b3 & b4 & b5 & b6 & -> & H1 & H2 & H3 & H4 & H5 & H6).
    cbn [strings.mapBytes].
    apply lowerByte_d in H1. apply lowerByte_e in H2, H4, H6.
    apply lowerByte_l in H3. apply lowerByte_t in H5.
    now rewrite H1, H2, H3, H4, H5, H6.
Qed.

(** X8: the three tests of [waiterFor] exclude one another, for every
    input, so the order in which they are made decides nothing: an input
    that lower-cases to [delete] has neither prefix, and an input with the
    prefix [condition=] does not have the prefix [jsonpath=]. *)
Theorem waiterFor_tests_exclusive (condition : string) :
  (strings.ToLower To_LowerCase condition = "delete" ->
   strings.HasPrefix condition "condition=" = false
   /\ strings.HasPrefix condition "jsonpath=" = false)
  /\ (strings.HasPrefix condition "condition=" = true ->
      strings.HasPrefix condition "jsonpath=" = false).
Proof.
  split.
  - intros D. split.
    + destruct (strings.HasPrefix condition "condition=") eqn:C;
        [| reflexivity].
      apply HasPrefix_inv in C. rewrite C in D.
      pose proof (ToLower_condition To_LowerCase
                    (drop (String.length "condition=") condition)) as N.
      apply String.eqb_neq in N. contradiction.
    + destruct (strings.HasPrefix condition "jsonpath=") eqn:J;
        [| reflexivity].
      apply HasPrefix_inv in J. rewrite J in D.
      pose proof (ToLower_jsonpath To_LowerCase
                    (drop (String.length "jsonpath=") condition)) as N.
      apply String.eqb_neq in N. contradiction.
  - intros C. apply HasPrefix_inv in C. rewrite C.
    unfold strings.HasPrefix. apply andb_false_intro2. reflexivity.
Qed.

(** *** Quotes around the expected value *)

Lemma allQuotes_no_equals (q : string) :
  allQuotes q = true -> hasByte "=" q = false.
Proof.
  unfold allQuotes, hasByte. induction q as [|b q IH]; [reflexivity |].
  cbn [strings.allBytes strings.anyByte]. rewrite andb_true_iff.
  intros [B Q]. rewrite (IH Q), orb_false_r.
  unfold isQuote in B. apply orb_true_iff in B.
  destruct B as [B | B]; apply Ascii.eqb_eq in B; now subst b.
Qed.

(** X10: quotes around the expected value change nothing.  For an
    expected value [v] that is not empty and neither starts nor ends with
    a quote, the input [jsonpath=p=v] and the same input with [v] put
    between any number of single or double quotes give the same waiter or
    the same error, and the same calls. *)
Theorem waiterFor_quoted_value (p v pre post : string) (errOut : Writer) :
  hasByte "=" p = false -> hasByte "=" v = false -> v <> "" ->
  startsQuoted v = false -> endsQuoted v = false ->
  allQuotes pre = true -> allQuotes post = true ->
  returned (waiterFor ("jsonpath=" ++ p ++ "=" ++ pre ++ v ++ post) errOut)
  = returned (waiterFor ("jsonpath=" ++ p ++ "=" ++ v) errOut)
  /\ calls (waiterFor ("jsonpath=" ++ p ++ "=" ++ pre ++ v ++ post) errOut)
     = calls (waiterFor ("jsonpath=" ++ p ++ "=" ++ v) errOut).
Proof.
  intros Hp Hv N S E Qpre Qpost.
  assert (Hq : hasByte "=" (pre ++ v ++ post) = false).
  { rewrite !hasByte_append, Hv.
    now rewrite (allQuotes_no_equals pre Qpre),
      (allQuotes_no_equals post Qpost). }
  assert (Nq : pre ++ v ++ post <> "").
  { destruct pre; [| discriminate]. destruct v; [contradiction | discriminate]. }
  assert (T : strings.Trim v quotes = v).
  { rewrite <- (append_empty_r v) at 1.
    change (v ++ "") with ("" ++ v ++ ""). now apply Trim_layers. }
  unfold returned, calls.
  rewrite (waiterFor_jsonpath_fields p _ errOut [] Hp Hq).
  rewrite (waiterFor_jsonpath_fields p v errOut [] Hp Hv).
  rewrite !afterArityCheck_run.
  rewrite (Trim_layers pre v post Qpre Qpost S E), T.
  destruct (String.eqb_spec (pre ++ v ++ post) ""); [contradiction |].
  destruct (String.eqb_spec v ""); [contradiction |].
  now split.
Qed.

End WaitFacts.

(** * The parser run on examples

    The theorems above hold for all collaborators; here they are applied
    with the collaborators of [Sample], and the inputs on which the
    parser departs from a simpler reading are evaluated. *)

(** The input [jsonpath={.status.phase}=a=b] has four fields. *)
Lemma waiterFor_jsonpath_three_fields_example :
  strings.HasPrefix "jsonpath={.status.phase}=a=b" "jsonpath=" = true
  /\ returned (Sample.waiterFor "jsonpath={.status.phase}=a=b" tt)
     = Err (ErrMalformedJSONPath Sample.isPrintTable)
  /\ calls (Sample.waiterFor "jsonpath={.status.phase}=a=b" tt) = [].
Proof.
  split; [reflexivity |].
  apply (waiterFor_jsonpath_three_fields
           Sample.JSONPath unit Sample.To_LowerCase Sample.isPrintTable
           Sample.RelaxedJSONPathExpression Sample.jsonpath_New Sample.Parse
           "jsonpath={.status.phase}=a=b" tt eq_refl).
  vm_compute. discriminate.
Defined.

(** The inputs [condition=Ready] and [condition=Ready=False]. *)
Lemma waiterFor_named_condition_example :
  hasByte "=" "Ready" = false
  /\ returned (Sample.waiterFor "condition=Ready" tt)
     = Ok (NewConditionalWaiter Sample.JSONPath unit "Ready" "true" tt)
  /\ returned (Sample.waiterFor "condition=Ready=False" tt)
     = Ok (NewConditionalWaiter Sample.JSONPath unit "Ready" "False" tt)
  /\ returned (Sample.waiterFor "condition=Ready=a=b" tt)
     = Ok (NewConditionalWaiter Sample.JSONPath unit "Ready" "a=b" tt).
Proof.
  split; [reflexivity |].
  exact (waiterFor_named_condition
           Sample.JSONPath unit Sample.To_LowerCase Sample.isPrintTable
           Sample.RelaxedJSONPathExpression Sample.jsonpath_New Sample.Parse
           "Ready" "False" tt eq_refl).
Defined.

(** The input [condition==]: an empty name and an empty value. *)
Lemma waiterFor_condition_succeeds_example :
  strings.HasPrefix "condition==" "condition=" = true
  /\ exists name value,
      returned (Sample.waiterFor "condition==" tt)
      = Ok (NewConditionalWaiter Sample.JSONPath unit name value tt)
      /\ calls (Sample.waiterFor "condition==" tt) = [].
Proof.
  split; [reflexivity |].
  exact (proj1 (waiterFor_condition_succeeds
                  Sample.JSONPath unit Sample.To_LowerCase Sample.isPrintTable
                  Sample.RelaxedJSONPathExpression Sample.jsonpath_New
                  Sample.Parse "condition==" tt eq_refl)).
Defined.

(** The input [foo=bar] is in the message as it is. *)
Lemma waiterFor_unrecognized_example :
  strings.ToLower Sample.To_LowerCase "foo=bar" <> "delete"
  /\ strings.HasPrefix "foo=bar" "condition=" = false
  /\ strings.HasPrefix "foo=bar" "jsonpath=" = false
  /\ exists e,
      returned (Sample.waiterFor "foo=bar" tt) = Err e
      /\ Error e
         = "unrecognized condition: "
           ++ String dquote ("foo=bar" ++ String dquote "")
      /\ strings.Contains (Error e) "foo=bar" = true.
Proof.
  assert (N : strings.ToLower Sample.To_LowerCase "foo=bar" <> "delete")
    by (vm_compute; discriminate).
  split; [exact N |]. split; [reflexivity |]. split; [reflexivity |].
  destruct (waiterFor_unrecognized
              Sample.JSONPath unit Sample.To_LowerCase Sample.isPrintTable
              Sample.RelaxedJSONPathExpression Sample.jsonpath_New Sample.Parse
              "foo=bar" tt N eq_refl eq_refl) as (e & R & _ & _ & P).
  exists e. split; [exact R |]. exact (P eq_refl).
Defined.

(** The input [jsonpath==x]. *)
Lemma waiterFor_empty_expression_example :
  hasByte "=" "x" = false /\ "x" <> ""
  /\ Sample.RelaxedJSONPathExpression "" = Ok ""
  /\ returned (Sample.waiterFor "jsonpath==x" tt) = Err ErrEmptyExpression
  /\ calls (Sample.waiterFor "jsonpath==x" tt)
     = [CallRelaxedJSONPathExpression ""; CallNew "wait"].
Proof.
  assert (N : "x" <> "") by discriminate.
  split; [reflexivity |]. split; [exact N |]. split; [reflexivity |].
  destruct (waiterFor_empty_expression
              Sample.JSONPath unit Sample.To_LowerCase Sample.isPrintTable
              Sample.RelaxedJSONPathExpression Sample.jsonpath_New Sample.Parse
              "x" tt eq_refl N eq_refl) as (_ & R & C & _).
  split; [exact R | exact C].
Defined.

(** The input [jsonpath={.status.phase}='']. *)
Lemma processJSONPathInput_quoted_empty_example :
  Sample.RelaxedJSONPathExpression "{.status.phase}" = Ok "{.status.phase}"
  /\ returned (Sample.processJSONPathInput "{.status.phase}" "''")
     = Ok ("{.status.phase}", "")
  /\ returned (Sample.waiterFor "jsonpath={.status.phase}=''" tt)
     = Ok (NewJSONPathWaiter Sample.JSONPath unit ""
             ("wait", "{.status.phase}") tt).
Proof.
  split; [reflexivity |].
  destruct (processJSONPathInput_quoted_empty
              Sample.JSONPath unit Sample.To_LowerCase Sample.isPrintTable
              Sample.RelaxedJSONPathExpression Sample.jsonpath_New Sample.Parse
              "{.status.phase}" "{.status.phase}" tt eq_refl) as [Q W].
  split; [exact Q |].
  apply (W ("wait", "{.status.phase}")); [reflexivity | discriminate |].
  reflexivity.
Defined.

(** Two layers of quotes, of both kinds, around [Running]. *)
Lemma processJSONPathInput_trims_quotes_example :
  Sample.RelaxedJSONPathExpression "{.status.phase}" = Ok "{.status.phase}"
  /\ allQuotes (String "'" (String dquote "")) = true
  /\ allQuotes (String dquote "'") = true
  /\ startsQuoted "Running" = false /\ endsQuoted "Running" = false
  /\ returned (Sample.processJSONPathInput "{.status.phase}"
                 (String "'" (String dquote "")
                  ++ "Running" ++ String dquote "'"))
     = Ok ("{.status.phase}", "Running").
Proof.
  split; [reflexivity |]. split; [reflexivity |]. split; [reflexivity |].
  split; [reflexivity |]. split; [reflexivity |].
  apply (processJSONPathInput_trims_quotes
           Sample.RelaxedJSONPathExpression "{.status.phase}" "{.status.phase}"
           (String "'" (String dquote "")) "Running" (String dquote "'")
           eq_refl eq_refl eq_refl eq_refl eq_refl).
  discriminate.
Defined.

(** An accepted path with an empty and with a non-empty expected value. *)
Lemma processJSONPathInput_empty_condition_example :
  Sample.RelaxedJSONPathExpression "{.status.phase}" = Ok "{.status.phase}"
  /\ returned (Sample.processJSONPathInput "{.status.phase}" "")
     = Err ErrEmptyCondition
  /\ returned (Sample.processJSONPathInput "{.status.phase}" "Running")
     <> Err ErrEmptyCondition.
Proof.
  split; [reflexivity |]. split.
  - apply (processJSONPathInput_empty_condition_iff
             Sample.RelaxedJSONPathExpression "{.status.phase}" ""
             "{.status.phase}" eq_refl).
    reflexivity.
  - intros F.
    apply (processJSONPathInput_empty_condition_iff
             Sample.RelaxedJSONPathExpression "{.status.phase}" "Running"
             "{.status.phase}" eq_refl) in F.
    discriminate F.
Defined.

(** Against C1 as stated: from [''Running''] both layers of quotes go,
    the expected value is [Running] and not ['Running']. *)
Lemma processJSONPathInput_strips_both_layers :
  returned (Sample.processJSONPathInput "{.status.phase}" "''Running''")
  = Ok ("{.status.phase}", "Running")
  /\ returned (Sample.processJSONPathInput "{.status.phase}" "''Running''")
     <> Ok ("{.status.phase}", "'Running'").
Proof. split; [reflexivity | discriminate]. Qed.

(** Against C5 as stated: the input made of [foo], a double quote and
    [bar] is neither [delete] nor prefixed, and the message of the error,
    in which the double quote is escaped, does not contain it. *)
Lemma waiterFor_unrecognized_escapes_input :
  strings.ToLower Sample.To_LowerCase ("foo" ++ String dquote "bar")
  <> "delete"
  /\ strings.HasPrefix ("foo" ++ String dquote "bar") "condition=" = false
  /\ strings.HasPrefix ("foo" ++ String dquote "bar") "jsonpath=" = false
  /\ returned (Sample.waiterFor ("foo" ++ String dquote "bar") tt)
     = Err (errorString
              ("unrecognized condition: "
               ++ String dquote
                    ("foo\" ++ String dquote ("bar" ++ String dquote ""))))
  /\ strings.Contains
       ("unrecognized condition: "
        ++ String dquote ("foo\" ++ String dquote ("bar" ++ String dquote "")))
       ("foo" ++ String dquote "bar")
     = false.
Proof.
  split; [vm_compute; discriminate |]. repeat split; reflexivity.
Qed.

(** Against C6 as stated: the relaxer accepts the empty path, and with
    the empty path and the empty expected value, in the input
    [jsonpath==], the error is the one of the empty condition and not the
    one of the empty expression. *)
Lemma waiterFor_empty_path_and_value :
  Sample.RelaxedJSONPathExpression "" = Ok ""
  /\ returned (Sample.waiterFor "jsonpath==" tt) = Err ErrEmptyCondition
  /\ returned (Sample.waiterFor "jsonpath==" tt) <> Err ErrEmptyExpression.
Proof. split; [reflexivity |]. split; [reflexivity | discriminate]. Qed.

(** Against C7 as stated: with the path [{], which the relaxer rejects,
    and the empty expected value, the error is the relaxer's and not the
    empty-condition error. *)
Lemma processJSONPathInput_relax_error_first :
  returned (Sample.processJSONPathInput "{" "") = Err Sample.relaxError
  /\ returned (Sample.processJSONPathInput "{" "") <> Err ErrEmptyCondition.
Proof. split; [reflexivity | discriminate]. Qed.

(** Against C9 as stated: the relaxer accepts the empty path, and the
    input [jsonpath==''] fails, with the empty-expression error. *)
Lemma waiterFor_quoted_empty_may_fail :
  Sample.RelaxedJSONPathExpression "" = Ok ""
  /\ returned (Sample.waiterFor "jsonpath==''" tt) = Err ErrEmptyExpression.
Proof. split; reflexivity. Qed.

(** ** Further examples *)

(** The input [jsonpath==]: the path and the expected value are both
    empty, and the error is the one of the empty condition. *)
Lemma waiterFor_jsonpath_error_order_example :
  hasByte "=" "" = false
  /\ Sample.RelaxedJSONPathExpression "" = Ok ""
  /\ returned (Sample.waiterFor "jsonpath==" tt) = Err ErrEmptyCondition
  /\ calls (Sample.waiterFor "jsonpath==" tt)
     = [CallRelaxedJSONPathExpression ""].
Proof.
  split; [reflexivity |]. split; [reflexivity |].
  exact (proj1 (proj2 (waiterFor_jsonpath_error_order
                         Sample.JSONPath unit Sample.To_LowerCase
                         Sample.isPrintTable Sample.RelaxedJSONPathExpression
                         Sample.jsonpath_New Sample.Parse
                         "" "" tt eq_refl eq_refl))
               "" eq_refl eq_refl).
Defined.

(** The collaborators of [Sample] do not panic, and the parser run with
    them does not either. *)
Lemma waiterFor_never_panics_example :
  (forall s, Sample.RelaxedJSONPathExpression s <> Panic)
  /\ (forall j s, Sample.Parse j s <> Panic)
  /\ returned (Sample.waiterFor "jsonpath={=x" tt) <> Panic.
Proof.
  assert (R : forall s, Sample.RelaxedJSONPathExpression s <> Panic).
  { intros s. unfold Sample.RelaxedJSONPathExpression.
    destruct (len s =? 0); [discriminate |].
    match goal with |- match ?x with _ => _ end <> _ => destruct x end;
      discriminate. }
  assert (P : forall j s, Sample.Parse j s <> Panic) by discriminate.
  split; [exact R |]. split; [exact P |].
  exact (waiterFor_never_panics
           Sample.JSONPath unit Sample.To_LowerCase Sample.isPrintTable
           Sample.RelaxedJSONPathExpression Sample.jsonpath_New Sample.Parse
           "jsonpath={=x" tt R P).
Defined.

(** The expected value ['it's']: the quote inside it stays. *)
Lemma processJSONPathInput_value_example :
  Sample.RelaxedJSONPathExpression "{.status.phase}" = Ok "{.status.phase}"
  /\ "'it's'" <> ""
  /\ returned (Sample.processJSONPathInput "{.status.phase}" "'it's'")
     = Ok ("{.status.phase}", "it's")
  /\ exists t pre post,
      returned (Sample.processJSONPathInput "{.status.phase}" "'it's'")
      = Ok ("{.status.phase}", t)
      /\ "'it's'" = pre ++ t ++ post
      /\ allQuotes pre = true /\ allQuotes post = true
      /\ startsQuoted t = false /\ endsQuoted t = false
      /\ (t = "" <-> allQuotes "'it's'" = true).
Proof.
  assert (N : "'it's'" <> "") by discriminate.
  split; [reflexivity |]. split; [exact N |]. split; [reflexivity |].
  exact (processJSONPathInput_value
           Sample.RelaxedJSONPathExpression "{.status.phase}" "'it's'"
           "{.status.phase}" eq_refl N).
Defined.

(** The input [Condition=Ready], with a capital. *)
Lemma waiterFor_first_byte_example :
  byteZ "C" < utf8.RuneSelf
  /\ returned (Sample.waiterFor "Condition=Ready" tt)
     = Err (ErrUnrecognizedCondition Sample.isPrintTable "Condition=Ready")
  /\ calls (Sample.waiterFor "Condition=Ready" tt) = [].
Proof.
  split; [reflexivity |].
  apply (waiterFor_first_byte
           Sample.JSONPath unit Sample.To_LowerCase Sample.isPrintTable
           Sample.RelaxedJSONPathExpression Sample.jsonpath_New Sample.Parse
           "C"%char "ondition=Ready" tt eq_refl); discriminate.
Defined.

(** The input [dElEtE]. *)
Lemma waiterFor_delete_spellings_example :
  strings.allBytes (fun b => byteZ b <? utf8.RuneSelf) "dElEtE" = true
  /\ returned (Sample.waiterFor "dElEtE" tt)
     = Ok (NewDeletionWaiter Sample.JSONPath unit).
Proof.
  split; [reflexivity |].
  apply (waiterFor_delete_spellings
           Sample.JSONPath unit Sample.To_LowerCase Sample.isPrintTable
           Sample.RelaxedJSONPathExpression Sample.jsonpath_New Sample.Parse
           "dElEtE" tt eq_refl).
  exists "d"%char, "E"%char, "l"%char, "E"%char, "t"%char, "E"%char.
  repeat split; (now left) || (now right).
Defined.

(** The waiter of [jsonpath={.a}='x']. *)
Lemma waiterFor_waiter_fields_example :
  returned (Sample.waiterFor "jsonpath={.a}='x'" tt)
  = Ok (NewJSONPathWaiter Sample.JSONPath unit "x" ("wait", "{.a}") tt)
  /\ hasByte "=" "x" = false /\ startsQuoted "x" = false
  /\ endsQuoted "x" = false.
Proof.
  split; [reflexivity |].
  destruct (proj2 (waiterFor_waiter_fields
                     Sample.JSONPath unit Sample.To_LowerCase
                     Sample.isPrintTable Sample.RelaxedJSONPathExpression
                     Sample.jsonpath_New Sample.Parse
                     "jsonpath={.a}='x'" tt _ eq_refl)
                  "x" ("wait", "{.a}") tt eq_refl) as (A & B & C & _).
  now repeat split.
Defined.

(** The inputs [jsonpath={.a}="'x'"], with both kinds of quotes, and
    [jsonpath={.a}=x]. *)
Lemma waiterFor_quoted_value_example :
  hasByte "=" "{.a}" = false /\ hasByte "=" "x" = false /\ "x" <> ""
  /\ startsQuoted "x" = false /\ endsQuoted "x" = false
  /\ allQuotes (String dquote "'") = true
  /\ allQuotes (String "'" (String dquote "")) = true
  /\ returned (Sample.waiterFor
                 ("jsonpath={.a}=" ++ String dquote "'" ++ "x"
                  ++ String "'" (String dquote "")) tt)
     = returned (Sample.waiterFor "jsonpath={.a}=x" tt).
Proof.
  assert (N : "x" <> "") by discriminate.
  repeat (split; [reflexivity || exact N |]).
  exact (proj1 (waiterFor_quoted_value
                  Sample.JSONPath unit Sample.To_LowerCase Sample.isPrintTable
                  Sample.RelaxedJSONPathExpression Sample.jsonpath_New
                  Sample.Parse "{.a}" "x" (String dquote "'")
                  (String "'" (String dquote "")) tt
                  eq_refl eq_refl N eq_refl eq_refl eq_refl eq_refl)).
Defined.
